(** * SMF-28 fibre end-face simulation: model and verified properties

    A shallow embedding of [fiber_simulation.py] (class [SMF28Simulator])
    and of the launcher [run_in_env.py].

    Numbers.  Python floats and numpy float64 values are modelled by real
    numbers: no rounding, no overflow, no signed zero.  What Python and
    numpy do on a zero divisor is written out: Python's own [/] raises
    [ZeroDivisionError], numpy's yields inf or nan and emits a
    [RuntimeWarning].  A negative Python float raised to the power 1.5 is a
    Python complex number.

    Effects.  Every method runs in the monad [Py], which records the
    warnings emitted so far and either an exception or a value.  Printing
    and plotting are not modelled, and neither is a [print] that fails on a
    standard output unable to encode the message.

    LightPipes.  The optical library is not part of the repository; its
    operations are the members of the class [LightPipes].  They are taken
    on the arguments for which the library returns: what the library itself
    raises or warns about (a negative distance, a phase array of the wrong
    shape) is outside the model. *)

From Stdlib Require Import Reals Lra Lia ZArith List String.
From stdpp Require Import gmap strings.
Import ListNotations.

Local Open Scope R_scope.

(** ** Python effects *)

Inductive exn :=
| ZeroDivisionError
| IndexError
| KeyError
| TypeError
| ValueError
| OSError
| CalledProcessError
| ConfigurationError. (* named by the specification; never raised by the source *)

Inductive warning :=
| RuntimeWarning      (* numpy: divide by zero / invalid value *)
| SamplingWarning     (* named by the specification; never emitted by the source *)
| DegenerateMetric.   (* named by the specification; never emitted by the source *)

Record Py (A : Type) := MkPy { warnings : list warning; outcome : exn + A }.
Arguments MkPy {A} _ _.
Arguments warnings {A} _.
Arguments outcome {A} _.

Definition py_ret {A} (x : A) : Py A := MkPy [] (inr x).
Definition py_raise {A} (e : exn) : Py A := MkPy [] (inl e).
Definition py_warn (w : warning) : Py unit := MkPy [w] (inr tt).
Definition py_bind {A B} (f : A -> Py B) (m : Py A) : Py B :=
  match outcome m with
  | inl e => MkPy (warnings m) (inl e)
  | inr a => MkPy (warnings m ++ warnings (f a)) (outcome (f a))
  end.

(** [try: m except <caught>: handler] *)
Definition py_except {A} (m : Py A) (caught : exn -> bool) (handler : Py A) : Py A :=
  match outcome m with
  | inl e => if caught e then MkPy (warnings m ++ warnings handler) (outcome handler) else m
  | inr _ => m
  end.

#[global] Instance Py_ret : MRet Py := @py_ret.
#[global] Instance Py_bind : MBind Py := @py_bind.

(** ** Numbers *)

(** A Python scalar that is a float or a complex. *)
Inductive scalar :=
| PyFloat (x : R)
| PyComplex (re im : R).

(** A numpy float64: a real number, or one of the IEEE specials. *)
Inductive npfloat :=
| Fin (x : R)
| PInf
| NInf
| NaN.

(** What ends up under the key ['beam_width']: the Python int of the
    [else] branch, or a numpy float64. *)
Inductive width :=
| PyInt (z : Z)
| NpFloat64 (x : npfloat).

(** [x / y] on Python floats. *)
Definition float_truediv (x y : R) : Py R :=
  if Req_dec_T y 0 then py_raise ZeroDivisionError else mret (x / y).

(** [x ** 1.5] on a Python float. *)
Definition float_pow15 (x : R) : scalar :=
  if Rlt_dec 0 x then PyFloat (Rpower x 1.5)
  else if Req_dec_T x 0 then PyFloat 0
  else PyComplex 0 (- Rpower (- x) 1.5).

(** [c / s] for a Python float [c]. *)
Definition scalar_rtruediv (c : R) (s : scalar) : Py scalar :=
  match s with
  | PyFloat x => x' ← float_truediv c x; mret (PyFloat x')
  | PyComplex re im =>
      if Req_dec_T (re * re + im * im) 0 then py_raise ZeroDivisionError
      else mret (PyComplex (c * re / (re * re + im * im))
                           (- (c * im) / (re * re + im * im)))
  end.

(** [c + s], [s + c], [c * s], [s * c] and [s / c] for a Python float or int [c]. *)
Definition scalar_add (c : R) (s : scalar) : scalar :=
  match s with
  | PyFloat x => PyFloat (c + x)
  | PyComplex re im => PyComplex (c + re) im
  end.

Definition scalar_mul (c : R) (s : scalar) : scalar :=
  match s with
  | PyFloat x => PyFloat (c * x)
  | PyComplex re im => PyComplex (c * re) (c * im)
  end.

Definition scalar_div2 (s : scalar) : scalar :=
  match s with
  | PyFloat x => PyFloat (x / 2)
  | PyComplex re im => PyComplex (re / 2) (im / 2)
  end.

(** numpy division [a / b]: a finite non-zero value over zero is an
    infinity (warning "divide by zero"), zero over zero and inf over inf
    are nan (warning "invalid value"). *)
Definition np_div_value (a b : npfloat) : npfloat :=
  match a, b with
  | NaN, _ | _, NaN => NaN
  | Fin x, Fin y =>
      if Req_dec_T y 0 then
        if Req_dec_T x 0 then NaN else if Rlt_dec 0 x then PInf else NInf
      else Fin (x / y)
  | Fin _, (PInf | NInf) => Fin 0
  | PInf, Fin y => if Rlt_dec y 0 then NInf else PInf
  | NInf, Fin y => if Rlt_dec y 0 then PInf else NInf
  | (PInf | NInf), (PInf | NInf) => NaN
  end.

Definition np_div_warns (a b : npfloat) : bool :=
  match a, b with
  | Fin _, Fin y => if Req_dec_T y 0 then true else false
  | (PInf | NInf), (PInf | NInf) => true
  | _, _ => false
  end.

Definition np_truediv (a b : npfloat) : Py npfloat :=
  MkPy (if np_div_warns a b then [RuntimeWarning] else []) (inr (np_div_value a b)).

(** An array of finite values divided by a scalar: one warning per kind
    of offence met in the array, not one per element. *)
Definition np_array_truediv (a : list R) (c : R) : Py (list npfloat) :=
  MkPy ((if Req_dec_T c 0 then
           (if existsb (fun x => if Req_dec_T x 0 then false else true) a
            then [RuntimeWarning] else []) ++
           (if existsb (fun x => if Req_dec_T x 0 then true else false) a
            then [RuntimeWarning] else [])
         else []))
       (inr (map (fun x => np_div_value (Fin x) (Fin c)) a)).

(** [c / f] for two beam widths.  Two Python ints divide to a Python
    float, given here as the finite numpy value of the same number. *)
Definition width_truediv (c f : width) : Py npfloat :=
  match c, f with
  | PyInt a, PyInt b =>
      if Z.eqb b 0 then py_raise ZeroDivisionError else mret (Fin (IZR a / IZR b))
  | PyInt a, NpFloat64 y => np_truediv (Fin (IZR a)) y
  | NpFloat64 x, PyInt b => np_truediv x (Fin (IZR b))
  | NpFloat64 x, NpFloat64 y => np_truediv x y
  end.

(** [a - c] and [a * c] for a finite Python number [c], with [0 < c] for the product. *)
Definition np_sub (a : npfloat) (c : R) : npfloat :=
  match a with Fin x => Fin (x - c) | other => other end.

Definition np_mul_pos (a : npfloat) (c : R) : npfloat :=
  match a with Fin x => Fin (x * c) | other => other end.

(** ** The LightPipes interface *)

Class LightPipes := {
  Field : Type;
  Begin : R -> R -> nat -> Field;                (* size, wavelength, N *)
  GaussBeam : Field -> scalar -> Field;           (* waist *)
  CircAperture : Field -> R -> Field;             (* radius *)
  SubPhase : Field -> list (list npfloat) -> Field;
  Fresnel : Field -> R -> Field;                  (* distance *)
  field : Field -> list (list (R * R))            (* the complex samples *)
}.

(** Modelled from the spec: LightPipes' [Intensity] is not in the
    repository; the specification gives it as the pointwise squared
    magnitude of the complex amplitude. *)
Definition sqmag (z : R * R) : R := fst z * fst z + snd z * snd z.

Definition Intensity `{LightPipes} (F : Field) : list (list R) :=
  map (map sqmag) (field F).

(** ** The simulator *)

Section Simulator.
Context {LP : LightPipes}.

Record SMF28Simulator := {
  wavelength : R;
  core_radius : R;
  cladding_radius : R;
  na : R;
  grid_size : nat;
  physical_size : R;
  lp : Field;
  v_number : R;
  mfd : scalar
}.

Definition set_mfd (self : SMF28Simulator) (m : scalar) : SMF28Simulator :=
  {| wavelength := wavelength self; core_radius := core_radius self;
     cladding_radius := cladding_radius self; na := na self;
     grid_size := grid_size self; physical_size := physical_size self;
     lp := lp self; v_number := v_number self; mfd := m |}.

(** The two quotients are evaluated left to right; the sums and products
    around them are written with the float operand first. *)
Definition calculate_mfd (self : SMF28Simulator) : Py scalar :=
  if Rlt_dec (v_number self) 2.405 then
    t1 ← scalar_rtruediv 1.619 (float_pow15 (v_number self));
    t2 ← float_truediv 2.879 (v_number self ^ 6);
    let w0_over_a := scalar_add t2 (scalar_add 0.65 t1) in
    mret (scalar_mul (core_radius self) (scalar_mul 2 w0_over_a))
  else
    mret (PyFloat (2 * core_radius self)).

(** The body of [__init__], with the three literals the fibre model
    depends on taken as arguments.  [mfd] is not yet assigned when
    [calculate_mfd] runs. *)
Definition init_with (wavelength0 core_radius0 na0 : R) : Py SMF28Simulator :=
  let grid_size0 := 512%nat in
  let physical_size0 := 500e-6 in
  let lp0 := Begin physical_size0 wavelength0 grid_size0 in
  v ← float_truediv (2 * PI * core_radius0 * na0) wavelength0;
  let self := {| wavelength := wavelength0; core_radius := core_radius0;
                 cladding_radius := 62.5e-6; na := na0;
                 grid_size := grid_size0; physical_size := physical_size0;
                 lp := lp0; v_number := v; mfd := PyFloat 0 |} in
  m ← calculate_mfd self;
  mret (set_mfd self m).

(** [SMF28Simulator()] *)
Definition init : Py SMF28Simulator := init_with 1550e-9 4.5e-6 0.12.

(** The arguments of a call of the class: the positional ones and the
    keyword ones. *)
Record call_arguments := {
  positional : list R;
  keywords : list (string * R)
}.

(** The call itself.  [__init__(self)] declares no parameter besides
    [self]: Python binds the arguments before the body runs and rejects
    any of them with a TypeError. *)
Definition construct (args : call_arguments) : Py SMF28Simulator :=
  match positional args, keywords args with
  | [], [] => init
  | _, _ => py_raise TypeError
  end.

Definition create_fiber_mode (self : SMF28Simulator) : Field :=
  let beam := lp self in
  let beam := GaussBeam beam (scalar_div2 (mfd self)) in
  let beam := CircAperture beam (cladding_radius self) in
  beam.

Definition flat_endface (self : SMF28Simulator) (distance : R) : Py Field :=
  let beam := create_fiber_mode self in
  let beam := Fresnel beam distance in
  mret beam.

(** [np.linspace(start, stop, num)]: [num] samples, both ends included.
    For [num = 1] the only index is 0 and the step is not used. *)
Definition linspace (start stop : R) (num : nat) : list R :=
  map (fun i => start + INR i * ((stop - start) / INR (num - 1))) (seq 0 num).

(** [np.sqrt(X**2 + Y**2)] for [X, Y = np.meshgrid(x, y)]: row [i] holds
    [y[i]], column [j] holds [x[j]]. *)
Definition radial_grid (x y : list R) : list (list R) :=
  map (fun yv => map (fun xv => sqrt (xv ^ 2 + yv ^ 2)) x) y.

(** The phase mask: zero, overwritten inside [valid_region]. *)
Definition phase_entry (k curvature_radius aperture_radius rho : R) : npfloat :=
  if Rle_dec rho aperture_radius
  then np_div_value (Fin (k * rho ^ 2)) (Fin (2 * curvature_radius))
  else Fin 0.

Definition concave_phase_mask (self : SMF28Simulator)
    (k curvature_radius aperture_radius : R) : Py (list (list npfloat)) :=
  let x := linspace (- physical_size self / 2) (physical_size self / 2) (grid_size self) in
  let y := linspace (- physical_size self / 2) (physical_size self / 2) (grid_size self) in
  let Rg := radial_grid x y in
  let selected :=
    List.filter (fun rho => if Rle_dec rho aperture_radius then true else false) (concat Rg) in
  _ ← np_array_truediv (map (fun rho => k * rho ^ 2) selected) (2 * curvature_radius);
  mret (map (map (phase_entry k curvature_radius aperture_radius)) Rg).

Definition concave_endface (self : SMF28Simulator)
    (curvature_radius aperture_factor distance : R) : Py Field :=
  let beam := create_fiber_mode self in
  let aperture_radius := core_radius self * aperture_factor in
  k ← float_truediv (2 * PI) (wavelength self);
  phase_mask ← concave_phase_mask self k curvature_radius aperture_radius;
  let beam := SubPhase beam phase_mask in
  let beam := CircAperture beam aperture_radius in
  let beam := Fresnel beam distance in
  mret beam.

(** Values stored in the dictionaries the methods return. *)
Inductive pyval :=
| VWidth (w : width)
| VFloat (x : R)
| VArr1 (a : list R)
| VArr2 (a : list (list R))
| VWidths (l : list width).

(** [np.max] of the flattened array. *)
Definition np_max (a : list R) : Py R :=
  match a with
  | [] => py_raise ValueError
  | x :: rest => mret (fold_left Rmax rest x)
  end.

(** [np.where(profile > threshold)[0]], counting from index [i]. *)
Fixpoint where_gt (threshold : R) (profile : list R) (i : nat) : list nat :=
  match profile with
  | [] => []
  | x :: rest =>
      if Rlt_dec threshold x then i :: where_gt threshold rest (S i)
      else where_gt threshold rest (S i)
  end.

Definition analyze_beam (self : SMF28Simulator) (beam : Field) : Py (gmap string pyval) :=
  let intensity := Intensity beam in
  let center_idx := (grid_size self / 2)%nat in
  x_profile ← match intensity !! center_idx with
               | Some row => mret row
               | None => py_raise IndexError
               end;
  max_intensity ← np_max (concat intensity);
  let threshold := max_intensity / (exp 1 ^ 2) in
  let x_coords := linspace (- physical_size self / 2) (physical_size self / 2) (grid_size self) in
  let x_indices := where_gt threshold x_profile 0 in
  beam_width ← match x_indices with
                | first :: _ =>
                    w ← np_truediv
                          (Fin (IZR (Z.of_nat (List.last x_indices first) - Z.of_nat first)
                                * physical_size self))
                          (Fin (INR (grid_size self)));
                    mret (NpFloat64 w)
                | [] => mret (PyInt 0)
                end;
  mret (<["intensity" := VArr2 intensity]>
        (<["beam_width" := VWidth beam_width]>
        (<["max_intensity" := VFloat max_intensity]>
        (<["x_coords" := VArr1 x_coords]>
        (<["x_profile" := VArr1 x_profile]> ∅))))).

(** [analysis['beam_width']]; the value under that key is a width. *)
Definition get_beam_width (analysis : gmap string pyval) : Py width :=
  match analysis !! "beam_width" with
  | Some (VWidth w) => mret w
  | Some _ => py_raise TypeError
  | None => py_raise KeyError
  end.

(** [analysis['x_profile']] *)
Definition get_x_profile (analysis : gmap string pyval) : Py (list R) :=
  match analysis !! "x_profile" with
  | Some (VArr1 a) => mret a
  | Some _ => py_raise TypeError
  | None => py_raise KeyError
  end.

(** The sweep loop of [parameter_study]; [acc] holds [beam_widths_flat]
    and [beam_widths_concave]. *)
Fixpoint sweep (self : SMF28Simulator) (curvature_radii : list R) (distance : R)
    (acc : list width * list width) : Py (list width * list width) :=
  match curvature_radii with
  | [] => mret acc
  | radius :: rest =>
      flat_beam ← flat_endface self distance;
      flat_analysis ← analyze_beam self flat_beam;
      wf ← get_beam_width flat_analysis;
      concave_beam ← concave_endface self radius 2.0 distance;
      concave_analysis ← analyze_beam self concave_beam;
      wc ← get_beam_width concave_analysis;
      sweep self rest distance (acc.1 ++ [wf], acc.2 ++ [wc])
  end.

(** [l[-1]] *)
Definition last_item (l : list width) : Py width :=
  match l with
  | [] => py_raise IndexError
  | x :: rest => mret (List.last rest x)
  end.

(** [profile / np.max(profile)] *)
Definition normalize_profile (profile : list R) : Py (list npfloat) :=
  m ← np_max profile;
  np_array_truediv profile m.

(** The figure with the comparison at [test_radius]: the four analyses
    and normalisations it evaluates; drawing itself has no model. *)
Definition comparison_figure (self : SMF28Simulator) (distance : R) : Py unit :=
  let test_radius := 50e-6 in
  flat_beam ← flat_endface self distance;
  concave_beam ← concave_endface self test_radius 2.0 distance;
  flat_analysis ← analyze_beam self flat_beam;
  concave_analysis ← analyze_beam self concave_beam;
  _ ← get_beam_width flat_analysis;
  _ ← get_beam_width concave_analysis;
  flat_profile ← get_x_profile flat_analysis;
  _ ← normalize_profile flat_profile;
  concave_profile ← get_x_profile concave_analysis;
  _ ← normalize_profile concave_profile;
  mret tt.

(** The last line of the printed summary:
    [(beam_widths_concave[-1]/beam_widths_flat[-1]-1)*100]. *)
Definition divergence_increase (concave_width flat_width : width) : Py npfloat :=
  ratio ← width_truediv concave_width flat_width;
  mret (np_mul_pos (np_sub ratio 1) 100).

Definition print_summary (beam_widths_flat beam_widths_concave : list width) : Py npfloat :=
  _ ← last_item beam_widths_flat;
  _ ← last_item beam_widths_concave;
  concave_width ← last_item beam_widths_concave;
  flat_width ← last_item beam_widths_flat;
  divergence_increase concave_width flat_width.

(** [parameter_study] for given sweep radii and distance. *)
Definition study (self : SMF28Simulator) (curvature_radii : list R) (distance : R)
    : Py (gmap string pyval) :=
  '(beam_widths_flat, beam_widths_concave) ← sweep self curvature_radii distance ([], []);
  _ ← comparison_figure self distance;
  _ ← print_summary beam_widths_flat beam_widths_concave;
  mret (<["curvature_radii" := VArr1 curvature_radii]>
        (<["beam_widths_flat" := VWidths beam_widths_flat]>
        (<["beam_widths_concave" := VWidths beam_widths_concave]> ∅))).

Definition sweep_radii : list R := map (fun r => r * 1e-6) [30; 50; 75; 100; 150; 200].

Definition parameter_study (self : SMF28Simulator) : Py (gmap string pyval) :=
  study self sweep_radii 1e-3.

(** ** Reference definitions worded after the specification *)

(** One flat-endface measurement and one concave-endface measurement, as
    an iteration of the sweep makes them. *)
Definition flat_width (self : SMF28Simulator) (distance : R) : Py width :=
  flat_beam ← flat_endface self distance;
  flat_analysis ← analyze_beam self flat_beam;
  get_beam_width flat_analysis.

Definition concave_width (self : SMF28Simulator) (radius distance : R) : Py width :=
  concave_beam ← concave_endface self radius 2.0 distance;
  concave_analysis ← analyze_beam self concave_beam;
  get_beam_width concave_analysis.

(** The sweep with the flat-endface result computed once and its beam
    width reused for every radius. *)
Fixpoint sweep_concave (self : SMF28Simulator) (curvature_radii : list R) (distance : R)
    (acc : list width) : Py (list width) :=
  match curvature_radii with
  | [] => mret acc
  | radius :: rest =>
      wc ← concave_width self radius distance;
      sweep_concave self rest distance (acc ++ [wc])
  end.


(** The number a beam width stands for, when it is finite. *)
Definition width_value (w : width) : option R :=
  match w with
  | PyInt z => Some (IZR z)
  | NpFloat64 (Fin x) => Some x
  | NpFloat64 _ => None
  end.

(** Modelled from the spec: the Fresnel-regime sampling criterion,
    "grid spacing² ≳ wavelength·z / N" with grid spacing = L/N.  The source
    has no such check. *)
Definition sampling_criterion (self : SMF28Simulator) (distance : R) : Prop :=
  (wavelength self * distance / INR (grid_size self))
  <= ((physical_size self / INR (grid_size self)) ^ 2).

(** The entries a [BeamMetrics] value has in the specification's data
    model; a degenerate flag would be an entry beside them. *)
Definition metric_keys : gset string :=
  {[ "intensity"; "beam_width"; "max_intensity"; "x_coords"; "x_profile" ]}.

Definition carries_flag (analysis : gmap string pyval) : Prop :=
  exists key, (key ∉ metric_keys) /\ is_Some (analysis !! key).

(** The dictionary [analyze_beam] builds around a beam width. *)
Definition metrics (self : SMF28Simulator) (beam : Field) (row : list R) (m : R)
    (beam_width : width) : gmap string pyval :=
  <["intensity" := VArr2 (Intensity beam)]>
  (<["beam_width" := VWidth beam_width]>
  (<["max_intensity" := VFloat m]>
  (<["x_coords" := VArr1 (linspace (- physical_size self / 2) (physical_size self / 2)
                                   (grid_size self))]>
  (<["x_profile" := VArr1 row]> ∅)))).

(** An optical field bound to the simulator's grid: N x N samples. *)
Definition on_grid (self : SMF28Simulator) (beam : Field) : Prop :=
  length (field beam) = grid_size self /\
  Forall (fun row => length row = grid_size self) (field beam).

(** The quantities the specification's BeamAnalyzer is worded with. *)
Definition is_maximum (m : R) (a : list R) : Prop :=
  m ∈ a /\ forall x, x ∈ a -> x <= m.

Definition above (threshold : R) (profile : list R) (i : nat) : Prop :=
  exists x, profile !! i = Some x /\ threshold < x.

Definition is_first_above (threshold : R) (profile : list R) (i : nat) : Prop :=
  above threshold profile i /\
  forall i', (i' < i)%nat -> ~ above threshold profile i'.

Definition is_last_above (threshold : R) (profile : list R) (i : nat) : Prop :=
  above threshold profile i /\
  forall i', (i < i')%nat -> ~ above threshold profile i'.

End Simulator.

(** ** The launcher [run_in_env.py] *)

Module Launcher.

(** What [subprocess.run(cmd, shell=True)] meets: the shell ran the
    command to an exit status, or the shell itself could not be spawned. *)
Inductive run_result :=
| Exited (returncode : Z)
| SpawnFailed.

Record environment := {
  simulation_file_exists : bool;     (* os.path.exists("fiber_optics_simulation.py") *)
  conda_run : run_result
}.

(** [subprocess.run(cmd, shell=True, check=True)] *)
Definition subprocess_run_check (env : environment) : Py Z :=
  match conda_run env with
  | Exited rc => if Z.eqb rc 0 then mret rc else py_raise CalledProcessError
  | SpawnFailed => py_raise OSError
  end.

Definition main (env : environment) : Py bool :=
  if negb (simulation_file_exists env) then mret false
  else
    py_except (_ ← subprocess_run_check env; mret true)
              (fun e => match e with CalledProcessError => true | _ => false end)
              (mret false).

(** The exit status of [python run_in_env.py]: the module body calls
    [main()] and drops what it returns; an exception that escapes ends the
    interpreter with status 1. *)
Definition script_exit_code (env : environment) : Z :=
  match outcome (main env) with
  | inr _ => 0%Z
  | inl _ => 1%Z
  end.

Definition simulation_succeeded (env : environment) : Prop :=
  simulation_file_exists env = true /\ conda_run env = Exited 0.

End Launcher.

(** ** An instance on bare sample arrays

    A field is its array of complex samples and every optical transform
    is left as the identity.  The simulator's own code (analysis, sweep
    bookkeeping, summary) can then be run on explicit arrays. *)

Definition SampleArrays : LightPipes := {|
  Field := list (list (R * R));
  Begin := fun _ _ N => repeat (repeat (1, 0) N) N;
  GaussBeam := fun F _ => F;
  CircAperture := fun F _ => F;
  SubPhase := fun F _ => F;
  Fresnel := fun F _ => F;
  field := fun F => F
|}.

(** A 4 x 4 simulator over a 4 m window on [SampleArrays]. *)
Definition bench (samples : list (list (R * R))) : @SMF28Simulator SampleArrays :=
  @Build_SMF28Simulator SampleArrays
    1550e-9 (* wavelength *) 4.5e-6 (* core_radius *) 62.5e-6 (* cladding_radius *)
    0.12 (* na *) 4 (* grid_size *) 4 (* physical_size *) samples (* lp *)
    2 (* v_number *) (PyFloat 1e-5) (* mfd *).

Definition dark : list (list (R * R)) := repeat (repeat (0, 0) 4%nat) 4%nat.

Definition spot : list (list (R * R)) :=
  [ repeat (0, 0) 4%nat;
    repeat (0, 0) 4%nat;
    [ (0, 0); (1, 0); (0, 1); (0, 0) ];
    repeat (0, 0) 4%nat ].

(** ** Further vocabulary for the properties *)

(** The keys of the dictionary [parameter_study] returns. *)
Definition study_keys : gset string :=
  {[ "curvature_radii"; "beam_widths_flat"; "beam_widths_concave" ]}.

(** Entry [a[i, j]] of a two-dimensional array. *)
Definition entry_at {A} (a : list (list A)) (i j : nat) : option A :=
  match a !! i with
  | Some row => row !! j
  | None => None
  end.

(** The samples of a field with every amplitude multiplied by the real
    factor [c]. *)
Definition scale_samples (c : R) (samples : list (list (R * R))) : list (list (R * R)) :=
  map (map (fun z => (c * z.1, c * z.2))) samples.

(** * Properties *)

(** ** The monad *)

Lemma py_bind_ret {A B} (x : A) (f : A -> Py B) : mret x ≫= f = f x.
Proof.
  unfold mbind, Py_bind, py_bind, mret, Py_ret, py_ret; simpl.
  now destruct (f x).
Qed.

Lemma py_bind_raise {A B} (e : exn) (f : A -> Py B) : py_raise e ≫= f = py_raise e.
Proof. reflexivity. Qed.

Lemma outcome_bind {A B} (m : Py A) (f : A -> Py B) :
  outcome (m ≫= f) =
  match outcome m with inl e => inl e | inr a => outcome (f a) end.
Proof.
  unfold mbind, Py_bind, py_bind. now destruct (outcome m).
Qed.

Lemma warnings_bind {A B} (m : Py A) (f : A -> Py B) :
  warnings (m ≫= f) =
  match outcome m with
  | inl _ => warnings m
  | inr a => warnings m ++ warnings (f a)
  end.
Proof.
  unfold mbind, Py_bind, py_bind. now destruct (outcome m).
Qed.

Lemma py_eq {A} (m : Py A) ws o : warnings m = ws -> outcome m = o -> m = MkPy ws o.
Proof. destruct m; simpl; congruence. Qed.

(** ** The fibre mode model *)

Section FiberMode.
Context {LP : LightPipes}.

Lemma float_truediv_nonzero (x y : R) : y <> 0 -> float_truediv x y = mret (x / y).
Proof. intros Hy. unfold float_truediv. now destruct (Req_dec_T y 0). Qed.

Lemma float_truediv_zero (x : R) : float_truediv x 0 = py_raise ZeroDivisionError.
Proof. unfold float_truediv. now destruct (Req_dec_T 0 0). Qed.

Lemma v_number_pos (wl a n : R) : 0 < wl -> 0 < a -> 0 < n -> 0 < 2 * PI * a * n / wl.
Proof.
  intros Hwl Ha Hn. apply Rdiv_lt_0_compat; [|assumption].
  pose proof PI_RGT_0 as Hpi.
  apply Rmult_lt_0_compat; [|assumption].
  apply Rmult_lt_0_compat; [|assumption].
  lra.
Qed.

(** [V ** -6] is the inverse of the sixth power. *)
Lemma Rpower_neg6 (v : R) : 0 < v -> Rpower v (-6) = / v ^ 6.
Proof.
  intros Hv. replace (-6) with (- INR 6) by (simpl; lra).
  now rewrite Rpower_Ropp, Rpower_pow.
Qed.

Lemma Rpower_neg15 (v : R) : Rpower v (-1.5) = / Rpower v 1.5.
Proof. replace (-1.5) with (Ropp 1.5) by lra. apply Rpower_Ropp. Qed.

Lemma Rpower_pos (x y : R) : 0 < Rpower x y.
Proof. unfold Rpower. apply exp_pos. Qed.

(** What [calculate_mfd] returns in the regime [0 < V]. *)
Lemma calculate_mfd_pos (self : SMF28Simulator) :
  0 < v_number self ->
  calculate_mfd self =
  mret (PyFloat (if Rlt_dec (v_number self) 2.405
                 then core_radius self *
                      (2 * (2.879 / v_number self ^ 6 +
                            (0.65 + 1.619 / Rpower (v_number self) 1.5)))
                 else 2 * core_radius self)).
Proof.
  intros Hv. unfold calculate_mfd.
  destruct (Rlt_dec (v_number self) 2.405) as [Hlt|Hge]; [|reflexivity].
  unfold float_pow15. destruct (Rlt_dec 0 (v_number self)) as [_|]; [|contradiction].
  cbn [scalar_rtruediv].
  pose proof (Rpower_pos (v_number self) 1.5) as Hp.
  rewrite (float_truediv_nonzero 1.619) by lra. rewrite !py_bind_ret.
  rewrite (float_truediv_nonzero 2.879) by (apply pow_nonzero; lra).
  now rewrite py_bind_ret.
Qed.

(** Construction from positive parameters: the simulator built. *)
Lemma init_with_pos (wl a n : R) :
  0 < wl -> 0 < a -> 0 < n ->
  exists m,
    init_with wl a n =
    mret {| wavelength := wl; core_radius := a; cladding_radius := 62.5e-6; na := n;
            grid_size := 512; physical_size := 500e-6;
            lp := Begin 500e-6 wl 512;
            v_number := 2 * PI * a * n / wl; mfd := PyFloat m |} /\
    (2 * PI * a * n / wl < 2.405 ->
       m = a * (2 * (2.879 / (2 * PI * a * n / wl) ^ 6 +
                     (0.65 + 1.619 / Rpower (2 * PI * a * n / wl) 1.5)))) /\
    (~ 2 * PI * a * n / wl < 2.405 -> m = 2 * a).
Proof.
  intros Hwl Ha Hn. pose proof (v_number_pos wl a n Hwl Ha Hn) as Hv.
  unfold init_with. rewrite float_truediv_nonzero by lra. rewrite py_bind_ret.
  rewrite calculate_mfd_pos by exact Hv. rewrite py_bind_ret. cbn.
  destruct (Rlt_dec (2 * PI * a * n / wl) 2.405) as [Hlt|Hge];
    eexists; (split; [reflexivity|]); split; intros; (reflexivity || contradiction).
Qed.

(** C1.  For positive wavelength, core radius and NA the constructor sets
    V = 2π·core_radius·NA/wavelength, and the mode field diameter that
    [calculate_mfd] returns is
    2·(0.65 + 1.619·V^(-1.5) + 2.879·V^(-6))·core_radius when V < 2.405
    and 2·core_radius otherwise. *)
Theorem calculate_mfd_formula (wl a n : R) :
  0 < wl -> 0 < a -> 0 < n ->
  let V := 2 * PI * a * n / wl in
  exists self,
    init_with wl a n = mret self /\
    v_number self = V /\
    core_radius self = a /\
    calculate_mfd self = mret (mfd self) /\
    (V < 2.405 ->
       mfd self =
       PyFloat (2 * (0.65 + 1.619 * Rpower V (-1.5) + 2.879 * Rpower V (-6)) * a)) /\
    (~ V < 2.405 -> mfd self = PyFloat (2 * a)).
Proof.
  intros Hwl Ha Hn V.
  pose proof (v_number_pos wl a n Hwl Ha Hn) as Hv. fold V in Hv.
  destruct (init_with_pos wl a n Hwl Ha Hn) as (m & Hinit & Hsm & Hmm).
  fold V in Hinit, Hsm, Hmm.
  eexists. split; [exact Hinit|]. cbn [v_number core_radius mfd].
  split; [reflexivity|]. split; [reflexivity|]. split.
  - rewrite calculate_mfd_pos by exact Hv. cbn [v_number core_radius].
    destruct (Rlt_dec V 2.405) as [Hlt|Hge].
    + now rewrite (Hsm Hlt).
    + now rewrite (Hmm Hge).
  - split.
    + intros Hlt. rewrite (Hsm Hlt). f_equal.
      rewrite Rpower_neg15, Rpower_neg6 by exact Hv.
      unfold Rdiv. ring.
    + intros Hge. now rewrite (Hmm Hge).
Qed.

End FiberMode.

Lemma calculate_mfd_formula_witness :
  exists self : @SMF28Simulator SampleArrays,
    init_with 1550e-9 4.5e-6 0.12 = mret self /\
    v_number self = 2 * PI * 4.5e-6 * 0.12 / 1550e-9 /\
    calculate_mfd self = mret (mfd self).
Proof.
  destruct (@calculate_mfd_formula SampleArrays 1550e-9 4.5e-6 0.12)
    as (self & Hinit & Hv & _ & Hm & _); [lra | lra | lra |].
  exists self. auto.
Defined.

(** ** Construction and validation *)

Section Construction.
Context {LP : LightPipes}.

(** [SMF28Simulator()] returns, with the literals of lines 24 to 27. *)
Lemma init_run :
  exists self,
    init = mret self /\
    wavelength self = 1550e-9 /\ core_radius self = 4.5e-6 /\ na self = 0.12.
Proof.
  destruct (init_with_pos 1550e-9 4.5e-6 0.12) as (m & Hinit & _); [lra | lra | lra |].
  eexists. split; [exact Hinit|]. now cbn.
Qed.

(** C6 (as amended).  The constructor takes no configuration and makes
    no validation: it never ends in a ConfigurationError; called without
    arguments it succeeds, with the fixed positive literals
    wavelength = 1550e-9, core radius = 4.5e-6 and NA = 0.12; called with
    any argument, positive or not, it fails with Python's TypeError, before
    its body runs. *)
Theorem construct_no_validation (args : call_arguments) :
  outcome (construct args) <> inl ConfigurationError /\
  (positional args = [] -> keywords args = [] ->
   exists self,
     construct args = mret self /\
     wavelength self = 1550e-9 /\ core_radius self = 4.5e-6 /\ na self = 0.12) /\
  (positional args <> [] \/ keywords args <> [] ->
   construct args = py_raise TypeError).
Proof.
  destruct init_run as (self & Hinit & Hfields).
  destruct args as [[|p ps] [|k ks]]; unfold construct; cbn [positional keywords].
  - rewrite Hinit. split; [discriminate|]. split.
    + intros _ _. now exists self.
    + intros [H|H]; now contradiction H.
  - split; [discriminate|]. split; [discriminate|reflexivity].
  - split; [discriminate|]. split; [discriminate|reflexivity].
  - split; [discriminate|]. split; [discriminate|reflexivity].
Qed.

End Construction.

Lemma construct_no_validation_witness :
  exists self : @SMF28Simulator SampleArrays,
    construct {| positional := []; keywords := [] |} = mret self /\
    wavelength self = 1550e-9 /\ core_radius self = 4.5e-6 /\ na self = 0.12.
Proof.
  destruct (@construct_no_validation SampleArrays {| positional := []; keywords := [] |})
    as (_ & H & _).
  apply H; reflexivity.
Defined.

(** C6 (as stated) fails: construction with the positive inputs
    wavelength = 1550e-9, core radius = 4.5e-6, NA = 0.12 does not succeed,
    and construction with a zero wavelength fails with a TypeError, not
    with a ConfigurationError. *)
Lemma construct_rejects_arguments :
  outcome (@construct SampleArrays
             {| positional := [1550e-9; 4.5e-6; 0.12]; keywords := [] |})
  = inl TypeError /\
  outcome (@construct SampleArrays
             {| positional := []; keywords := [("wavelength"%string, 0)] |})
  = inl TypeError.
Proof. split; reflexivity. Qed.

(** ** Beam analysis *)

Section Analysis.
Context {LP : LightPipes}.

Lemma elem_of_where_gt (t : R) (l : list R) (i n : nat) :
  n ∈ where_gt t l i <-> (i <= n)%nat /\ above t l (n - i).
Proof.
  revert i. induction l as [|x l IH]; intros i; cbn [where_gt].
  - split; [intros H; inversion H|]. intros [_ (y & Hy & _)]. discriminate.
  - assert (Hstep : n ∈ where_gt t l (S i) <-> (i < n)%nat /\ above t l (n - S i)).
    { rewrite IH. reflexivity. }
    assert (Htail : (i < n)%nat -> above t (x :: l) (n - i) <-> above t l (n - S i)).
    { intros Hlt. unfold above.
      replace (n - i)%nat with (S (n - S i)) by lia. reflexivity. }
    destruct (Rlt_dec t x) as [Hx|Hx].
    + rewrite elem_of_cons, Hstep. split.
      * intros [->|[Hlt Ha]].
        -- split; [lia|]. replace (i - i)%nat with 0%nat by lia. exists x. now split.
        -- split; [lia|]. now apply Htail.
      * intros [Hle Ha]. destruct (decide (n = i)) as [->|Hne]; [now left|right].
        split; [lia|]. apply Htail; [lia|exact Ha].
    + rewrite Hstep. split.
      * intros [Hlt Ha]. split; [lia|]. now apply Htail.
      * intros [Hle Ha]. destruct (decide (n = i)) as [->|Hne].
        -- replace (i - i)%nat with 0%nat in Ha by lia.
           destruct Ha as (y & [= <-] & Hy). contradiction.
        -- split; [lia|]. apply Htail; [lia|exact Ha].
Qed.

(** The indices come out in increasing order: the first is the least. *)
Lemma where_gt_first (t : R) (l : list R) (i first : nat) (rest : list nat) :
  where_gt t l i = first :: rest -> forall n, n ∈ rest -> (first < n)%nat.
Proof.
  revert i. induction l as [|x l IH]; intros i; cbn [where_gt]; [discriminate|].
  destruct (Rlt_dec t x); [|apply IH].
  intros [= <- <-] n Hn. apply elem_of_where_gt in Hn. lia.
Qed.

(** ... and the last is the greatest. *)
Lemma where_gt_last (t : R) (l : list R) (i d n : nat) :
  n ∈ where_gt t l i -> (n <= List.last (where_gt t l i) d)%nat.
Proof.
  revert i n. induction l as [|x l IH]; intros i n; cbn [where_gt].
  - intros H. inversion H.
  - destruct (Rlt_dec t x); [|apply IH].
    destruct (where_gt t l (S i)) as [|k w] eqn:E.
    + intros ->%list_elem_of_singleton. simpl. lia.
    + intros [->|Hn]%elem_of_cons.
      * change (List.last (i :: k :: w) d) with (List.last (k :: w) d).
        assert (k ∈ where_gt t l (S i)) as Hk by (rewrite E; left).
        rewrite <- E. apply IH in Hk as Hlast.
        apply elem_of_where_gt in Hk. lia.
      * change (List.last (i :: k :: w) d) with (List.last (k :: w) d).
        rewrite <- E. apply IH. now rewrite E.
Qed.

Lemma last_elem_of (l : list nat) (d : nat) : l <> [] -> List.last l d ∈ l.
Proof.
  induction l as [|a l IH]; [congruence|]. intros _.
  destruct l as [|b l]; [left|].
  change (List.last (a :: b :: l) d) with (List.last (b :: l) d).
  right. now apply IH.
Qed.

Lemma where_gt_first_above (t : R) (row : list R) (i first : nat) (rest : list nat) :
  where_gt t row 0 = first :: rest -> is_first_above t row i -> first = i.
Proof.
  intros E [Hi Hleast].
  assert (Hf : first ∈ where_gt t row 0) by (rewrite E; left).
  assert (Hin : i ∈ where_gt t row 0).
  { apply elem_of_where_gt. split; [lia|]. now rewrite Nat.sub_0_r. }
  apply elem_of_where_gt in Hf as [_ Hf]. rewrite Nat.sub_0_r in Hf.
  rewrite E in Hin. apply elem_of_cons in Hin as [->|Hin]; [reflexivity|].
  apply (where_gt_first _ _ _ _ _ E) in Hin.
  exfalso. exact (Hleast first Hin Hf).
Qed.

Lemma where_gt_last_above (t : R) (row : list R) (j d : nat) :
  is_last_above t row j -> List.last (where_gt t row 0) d = j.
Proof.
  intros [Hj Hmost].
  assert (Hin : j ∈ where_gt t row 0).
  { apply elem_of_where_gt. split; [lia|]. now rewrite Nat.sub_0_r. }
  pose proof (where_gt_last _ _ _ d _ Hin) as Hle.
  assert (Hl : List.last (where_gt t row 0) d ∈ where_gt t row 0).
  { apply last_elem_of. intros E. rewrite E in Hin. inversion Hin. }
  apply elem_of_where_gt in Hl as [_ Hl]. rewrite Nat.sub_0_r in Hl.
  destruct (decide (List.last (where_gt t row 0) d = j)) as [|Hne]; [assumption|].
  exfalso. apply (Hmost (List.last (where_gt t row 0) d)); [lia|exact Hl].
Qed.

Lemma where_gt_none (t : R) (row : list R) :
  (forall i, ~ above t row i) -> where_gt t row 0 = [].
Proof.
  intros Hnone. destruct (where_gt t row 0) as [|n w] eqn:E; [reflexivity|].
  assert (Hn : n ∈ where_gt t row 0) by (rewrite E; left).
  apply elem_of_where_gt in Hn as [_ Hn]. now apply Hnone in Hn.
Qed.

(** [np.max] returns the maximum. *)
Lemma fold_left_Rmax (rest : list R) (x : R) :
  is_maximum (fold_left Rmax rest x) (x :: rest).
Proof.
  revert x. induction rest as [|y rest IH]; intros x; cbn [fold_left].
  - split; [left|]. intros z ->%list_elem_of_singleton. lra.
  - destruct (IH (Rmax x y)) as [Hin Hub]. split.
    + apply elem_of_cons in Hin as [Heq|Hin]; [|right; now right].
      rewrite Heq. unfold Rmax. destruct (Rle_dec x y); [right; left|left].
    + intros z Hz.
      assert (Hm : Rmax x y <= fold_left Rmax rest (Rmax x y)) by (apply Hub; left).
      apply elem_of_cons in Hz as [->|Hz].
      * pose proof (Rmax_l x y). lra.
      * apply elem_of_cons in Hz as [->|Hz].
        -- pose proof (Rmax_r x y). lra.
        -- apply Hub. now right.
Qed.

Lemma is_maximum_unique (m m' : R) (a : list R) :
  is_maximum m a -> is_maximum m' a -> m = m'.
Proof.
  intros [Hin Hub] [Hin' Hub']. apply Hub' in Hin. apply Hub in Hin'. lra.
Qed.

Lemma np_max_maximum (m : R) (a : list R) : is_maximum m a -> np_max a = mret m.
Proof.
  intros Hm. destruct a as [|x rest].
  - destruct Hm as [Hin _]. inversion Hin.
  - cbn [np_max]. f_equal.
    apply (is_maximum_unique _ _ (x :: rest)); [apply fold_left_Rmax|exact Hm].
Qed.

Lemma metrics_dom self beam row m w : dom (metrics self beam row m w) = metric_keys.
Proof. unfold metrics, metric_keys. rewrite !dom_insert_L. set_solver. Qed.

Lemma metrics_no_flag self beam row m w : ~ carries_flag (metrics self beam row m w).
Proof.
  intros (key & Hkey & Hsome). apply Hkey.
  rewrite <- (metrics_dom self beam row m w). now apply elem_of_dom.
Qed.

(** One run of [analyze_beam], up to the choice of the beam width. *)
Lemma analyze_beam_run (self : SMF28Simulator) (beam : Field) (row : list R) (m : R) :
  Intensity beam !! (grid_size self / 2)%nat = Some row ->
  is_maximum m (concat (Intensity beam)) ->
  analyze_beam self beam =
  match where_gt (m / exp 1 ^ 2) row 0 with
  | first :: rest =>
      w ← np_truediv
            (Fin (IZR (Z.of_nat (List.last (first :: rest) first) - Z.of_nat first)
                  * physical_size self))
            (Fin (INR (grid_size self)));
      mret (metrics self beam row m (NpFloat64 w))
  | [] => mret (metrics self beam row m (PyInt 0))
  end.
Proof.
  intros Hrow Hmax. unfold analyze_beam. rewrite Hrow, py_bind_ret.
  rewrite (np_max_maximum m) by exact Hmax. rewrite py_bind_ret.
  destruct (where_gt (m / exp 1 ^ 2) row 0) as [|first rest].
  - now rewrite py_bind_ret.
  - unfold np_truediv, np_div_warns.
    destruct (Req_dec_T (INR (grid_size self)) 0); reflexivity.
Qed.

(** No sample above the threshold: the [else] branch. *)
Lemma analyze_beam_else (self : SMF28Simulator) (beam : Field) (row : list R) (m : R) :
  Intensity beam !! (grid_size self / 2)%nat = Some row ->
  is_maximum m (concat (Intensity beam)) ->
  (forall i, ~ above (m / exp 1 ^ 2) row i) ->
  analyze_beam self beam = mret (metrics self beam row m (PyInt 0)).
Proof.
  intros Hrow Hmax Hnone. rewrite (analyze_beam_run self beam row m Hrow Hmax).
  now rewrite where_gt_none.
Qed.

End Analysis.

Ltac metric_lookup :=
  unfold metrics;
  repeat (rewrite lookup_insert_eq || rewrite lookup_insert_ne by done);
  reflexivity.

Lemma exp1_sq_gt_1 : 1 < exp 1 ^ 2.
Proof. pose proof (exp_ineq1 1 ltac:(lra)). nra. Qed.

Lemma np_truediv_nonzero (x y : R) :
  y <> 0 -> np_truediv (Fin x) (Fin y) = mret (Fin (x / y)).
Proof.
  intros Hy. unfold np_truediv, np_div_warns, np_div_value.
  now destruct (Req_dec_T y 0).
Qed.

Section AnalysisClaims.
Context {LP : LightPipes}.

Lemma on_grid_center_row (self : SMF28Simulator) (beam : Field) :
  (0 < grid_size self)%nat -> on_grid self beam ->
  exists row, Intensity beam !! (grid_size self / 2)%nat = Some row /\ row <> [].
Proof.
  intros Hpos [Hlen Hrows]. unfold Intensity.
  destruct (lookup_lt_is_Some_2 (field beam) (grid_size self / 2)%nat) as [r Hr].
  { rewrite Hlen. apply Nat.div_lt; lia. }
  exists (map sqmag r). rewrite list_lookup_fmap, Hr. split; [reflexivity|].
  rewrite Forall_forall in Hrows.
  assert (Hr' : length r = grid_size self).
  { apply Hrows. eapply list_elem_of_lookup_2, Hr. }
  destruct r; simpl in *; [lia|discriminate].
Qed.

Lemma concat_maximum (a : list (list R)) (i : nat) (row : list R) :
  a !! i = Some row -> row <> [] -> exists m, is_maximum m (concat a).
Proof.
  intros Hrow Hne. destruct (concat a) as [|x rest] eqn:E.
  - exfalso. destruct row as [|y row]; [congruence|].
    assert (Hy : y ∈ concat a).
    { apply list_elem_of_In, in_concat. exists (y :: row). split.
      - apply list_elem_of_In. eapply list_elem_of_lookup_2, Hrow.
      - now left. }
    rewrite E in Hy. inversion Hy.
  - eexists. apply fold_left_Rmax.
Qed.

(** C2.  For every field on the simulator's grid, [analyze_beam] stores
    the pointwise squared magnitude as the intensity, the intensity row
    through the grid centre as the cross-section and the maximum of the
    whole 2D intensity as [max_intensity]; with the threshold at that
    maximum over e², the beam width it returns is (index of the last
    cross-section sample strictly above the threshold − index of the first
    such sample) × (window size L / grid resolution N). *)
Theorem analyze_beam_width (self : SMF28Simulator) (beam : Field) :
  (0 < grid_size self)%nat -> on_grid self beam ->
  exists d row m,
    analyze_beam self beam = mret d /\
    d !! "intensity" = Some (VArr2 (map (map sqmag) (field beam))) /\
    Intensity beam !! (grid_size self / 2)%nat = Some row /\
    d !! "x_profile" = Some (VArr1 row) /\
    is_maximum m (concat (Intensity beam)) /\
    d !! "max_intensity" = Some (VFloat m) /\
    forall i j,
      is_first_above (m / exp 1 ^ 2) row i ->
      is_last_above (m / exp 1 ^ 2) row j ->
      d !! "beam_width" =
      Some (VWidth (NpFloat64
        (Fin ((INR j - INR i) * (physical_size self / INR (grid_size self)))))).
Proof.
  intros Hpos Hgrid.
  destruct (on_grid_center_row self beam Hpos Hgrid) as (row & Hrow & Hne).
  destruct (concat_maximum _ _ _ Hrow Hne) as [m Hmax].
  assert (HN : INR (grid_size self) <> 0) by (apply not_0_INR; lia).
  rewrite (analyze_beam_run self beam row m Hrow Hmax).
  destruct (where_gt (m / exp 1 ^ 2) row 0) as [|first rest] eqn:E.
  - exists (metrics self beam row m (PyInt 0)), row, m.
    repeat split; try assumption; try apply Hmax; try metric_lookup.
    intros i j [Hi _] _. exfalso.
    assert (Hin : i ∈ where_gt (m / exp 1 ^ 2) row 0).
    { apply elem_of_where_gt. split; [lia|]. now rewrite Nat.sub_0_r. }
    rewrite E in Hin. inversion Hin.
  - rewrite np_truediv_nonzero by exact HN. rewrite py_bind_ret.
    eexists _, row, m. split; [reflexivity|].
    repeat split; try assumption; try apply Hmax; try metric_lookup.
    intros i j Hi Hj.
    rewrite <- E, (where_gt_last_above _ _ j first Hj).
    rewrite (where_gt_first_above _ _ i first rest E Hi).
    unfold metrics. rewrite lookup_insert_ne by done. rewrite lookup_insert_eq.
    do 4 f_equal. rewrite minus_IZR, <- !INR_IZR_INZ. unfold Rdiv. ring.
Qed.

(** C4 (as amended).  When no cross-section sample strictly exceeds the
    threshold, [analyze_beam] returns without raising and without a
    warning, with beam_width = 0; the result has exactly the five entries
    intensity, beam_width, max_intensity, x_coords and x_profile, and no
    degenerate flag beside them. *)
Theorem analyze_beam_degenerate (self : SMF28Simulator) (beam : Field)
    (row : list R) (m : R) :
  Intensity beam !! (grid_size self / 2)%nat = Some row ->
  is_maximum m (concat (Intensity beam)) ->
  (forall i, ~ above (m / exp 1 ^ 2) row i) ->
  exists d,
    analyze_beam self beam = mret d /\
    d !! "beam_width" = Some (VWidth (PyInt 0)) /\
    dom d = metric_keys /\
    ~ carries_flag d.
Proof.
  intros Hrow Hmax Hnone. eexists. split.
  - exact (analyze_beam_else self beam row m Hrow Hmax Hnone).
  - split; [metric_lookup|]. split; [apply metrics_dom|apply metrics_no_flag].
Qed.

End AnalysisClaims.

(** *** Runs on explicit arrays *)

Lemma sqmag_dark : sqmag (0, 0) = 0.
Proof. unfold sqmag; simpl; ring. Qed.

Lemma sqmag_re : sqmag (1, 0) = 1.
Proof. unfold sqmag; simpl; ring. Qed.

Lemma sqmag_im : sqmag (0, 1) = 1.
Proof. unfold sqmag; simpl; ring. Qed.

Lemma dark_center_row :
  @Intensity SampleArrays dark !! (grid_size (bench dark) / 2)%nat = Some [0; 0; 0; 0].
Proof.
  unfold Intensity, dark; simpl. now rewrite sqmag_dark.
Qed.

Lemma dark_maximum : is_maximum 0 (concat (@Intensity SampleArrays dark)).
Proof.
  unfold Intensity, dark; simpl. rewrite sqmag_dark. split; [left|].
  intros x Hx. apply list_elem_of_In in Hx. simpl in Hx.
  repeat (destruct Hx as [<-|Hx]; [lra|]). contradiction.
Qed.

Lemma dark_never_above (i : nat) : ~ above (0 / exp 1 ^ 2) [0; 0; 0; 0] i.
Proof.
  intros (x & Hx & Hlt). unfold Rdiv in Hlt. rewrite Rmult_0_l in Hlt.
  do 4 (destruct i as [|i]; [injection Hx as <-; lra|]). discriminate.
Qed.

Lemma analyze_beam_degenerate_witness :
  exists d,
    analyze_beam (bench dark) dark = mret d /\
    d !! "beam_width" = Some (VWidth (PyInt 0)) /\
    dom d = metric_keys /\
    ~ carries_flag d.
Proof.
  apply (@analyze_beam_degenerate SampleArrays (bench dark) dark [0; 0; 0; 0] 0).
  - exact dark_center_row.
  - exact dark_maximum.
  - exact dark_never_above.
Defined.

(** C4 (as stated) fails: on the constant zero field [analyze_beam]
    returns beam_width = 0 without raising, but what it returns carries no
    degenerate flag. *)
Lemma analyze_beam_dark_unflagged :
  (exists d, analyze_beam (bench dark) dark = mret d /\
             d !! "beam_width" = Some (VWidth (PyInt 0))) /\
  ~ (exists d, outcome (analyze_beam (bench dark) dark) = inr d /\ carries_flag d).
Proof.
  pose proof (@analyze_beam_else SampleArrays (bench dark) dark [0; 0; 0; 0] 0
                dark_center_row dark_maximum dark_never_above) as Hrun.
  split.
  - eexists. split; [exact Hrun|]. metric_lookup.
  - intros (d & Hd & Hflag). rewrite Hrun in Hd. injection Hd as <-.
    revert Hflag. apply metrics_no_flag.
Qed.

Lemma spot_center_row :
  @Intensity SampleArrays spot !! (grid_size (bench spot) / 2)%nat = Some [0; 1; 1; 0].
Proof.
  unfold Intensity, spot; simpl. now rewrite sqmag_dark, sqmag_re, sqmag_im.
Qed.

Lemma spot_maximum : is_maximum 1 (concat (@Intensity SampleArrays spot)).
Proof.
  unfold Intensity, spot; simpl. rewrite sqmag_dark, sqmag_re, sqmag_im. split.
  - do 9 right. left.
  - intros x Hx. apply list_elem_of_In in Hx. simpl in Hx.
    repeat (destruct Hx as [<-|Hx]; [lra|]). contradiction.
Qed.

Lemma spot_threshold : 0 < 1 / exp 1 ^ 2 < 1.
Proof.
  pose proof exp1_sq_gt_1 as He. split.
  - apply Rdiv_lt_0_compat; lra.
  - apply (Rmult_lt_reg_r (exp 1 ^ 2)); [lra|].
    unfold Rdiv. rewrite Rmult_assoc, Rinv_l by lra. lra.
Qed.

Lemma spot_first : is_first_above (1 / exp 1 ^ 2) [0; 1; 1; 0] 1.
Proof.
  pose proof spot_threshold as Ht. split.
  - exists 1. split; [reflexivity|lra].
  - intros i' Hi' (x & Hx & Hlt). destruct i' as [|i']; [|lia].
    injection Hx as <-. lra.
Qed.

Lemma spot_last : is_last_above (1 / exp 1 ^ 2) [0; 1; 1; 0] 2.
Proof.
  pose proof spot_threshold as Ht. split.
  - exists 1. split; [reflexivity|lra].
  - intros i' Hi' (x & Hx & Hlt).
    do 3 (destruct i' as [|i']; [lia|]).
    destruct i' as [|i']; [injection Hx as <-; lra|discriminate].
Qed.

Lemma spot_on_grid : on_grid (bench spot) (spot : @Field SampleArrays).
Proof.
  split; [reflexivity|]. repeat constructor.
Qed.

Lemma analyze_beam_width_witness :
  exists d,
    analyze_beam (bench spot) spot = mret d /\
    d !! "beam_width" =
    Some (VWidth (NpFloat64 (Fin ((INR 2 - INR 1) * (4 / INR 4))))).
Proof.
  destruct (@analyze_beam_width SampleArrays (bench spot) spot)
    as (d & row & m & Hrun & _ & Hrow & _ & Hmax & _ & Hwidth).
  - simpl. lia.
  - exact spot_on_grid.
  - exists d. split; [exact Hrun|].
    rewrite spot_center_row in Hrow. injection Hrow as <-.
    rewrite <- (is_maximum_unique _ _ _ spot_maximum Hmax) in Hwidth.
    exact (Hwidth 1%nat 2%nat spot_first spot_last).
Defined.

(** ** The end-face pipelines *)

Lemma np_array_truediv_nonzero (a : list R) (c : R) :
  c <> 0 -> np_array_truediv a c = mret (map (fun x => np_div_value (Fin x) (Fin c)) a).
Proof.
  intros Hc. unfold np_array_truediv. now destruct (Req_dec_T c 0).
Qed.

Lemma length_linspace (start stop : R) (num : nat) : length (linspace start stop num) = num.
Proof. unfold linspace. now rewrite length_map, length_seq. Qed.

Section Pipelines.
Context {LP : LightPipes}.

Lemma phase_entry_inside (k cr ap rho : R) :
  cr <> 0 -> rho <= ap -> phase_entry k cr ap rho = Fin (k * rho ^ 2 / (2 * cr)).
Proof.
  intros Hcr Hin. unfold phase_entry, np_div_value.
  destruct (Rle_dec rho ap); [|contradiction].
  now destruct (Req_dec_T (2 * cr) 0); [lra|].
Qed.

Lemma phase_entry_outside (k cr ap rho : R) :
  ap < rho -> phase_entry k cr ap rho = Fin 0.
Proof.
  intros Hout. unfold phase_entry. now destruct (Rle_dec rho ap); [lra|].
Qed.

Lemma concave_phase_mask_run (self : SMF28Simulator) (k cr ap : R) :
  cr <> 0 ->
  concave_phase_mask self k cr ap =
  mret (map (map (phase_entry k cr ap))
            (radial_grid
               (linspace (- physical_size self / 2) (physical_size self / 2) (grid_size self))
               (linspace (- physical_size self / 2) (physical_size self / 2) (grid_size self)))).
Proof.
  intros Hcr. unfold concave_phase_mask.
  rewrite np_array_truediv_nonzero by lra. now rewrite py_bind_ret.
Qed.

(** C3.  For a curvature radius R > 0 and any aperture factor,
    [concave_endface] builds the phase profile k·ρ²/(2·R), k = 2π/wavelength,
    at every grid point with ρ ≤ aperture_radius = core_radius × aperture_factor
    and 0 at every point with ρ > aperture_radius, applies it to the seeded
    fibre mode, clips with a circular aperture of that same aperture_radius,
    and only then propagates. *)
Theorem concave_endface_pipeline (self : SMF28Simulator) (curvature_radius aperture_factor distance : R) :
  0 < curvature_radius -> wavelength self <> 0 ->
  let aperture_radius := core_radius self * aperture_factor in
  let k := 2 * PI / wavelength self in
  let axis := linspace (- physical_size self / 2) (physical_size self / 2) (grid_size self) in
  exists phase_mask,
    concave_endface self curvature_radius aperture_factor distance =
    mret (Fresnel
            (CircAperture (SubPhase (create_fiber_mode self) phase_mask) aperture_radius)
            distance) /\
    length phase_mask = grid_size self /\
    forall i j x y,
      axis !! i = Some y -> axis !! j = Some x ->
      let rho := sqrt (x ^ 2 + y ^ 2) in
      exists row entry,
        phase_mask !! i = Some row /\ row !! j = Some entry /\
        (rho <= aperture_radius -> entry = Fin (k * rho ^ 2 / (2 * curvature_radius))) /\
        (aperture_radius < rho -> entry = Fin 0).
Proof.
  intros Hcr Hwl aperture_radius k axis.
  unfold concave_endface. rewrite float_truediv_nonzero by exact Hwl.
  rewrite py_bind_ret. fold k aperture_radius.
  rewrite concave_phase_mask_run by lra. rewrite py_bind_ret. fold axis.
  eexists. split; [reflexivity|]. split.
  - unfold radial_grid. rewrite !length_map. apply length_linspace.
  - intros i j x y Hy Hx. set (rho := sqrt (x ^ 2 + y ^ 2)). unfold radial_grid.
    exists (map (phase_entry k curvature_radius aperture_radius)
                (map (fun xv => sqrt (xv ^ 2 + y ^ 2)) axis)),
           (phase_entry k curvature_radius aperture_radius rho).
    split; [now rewrite !list_lookup_fmap, Hy|].
    split; [now rewrite !list_lookup_fmap, Hx|].
    split.
    + apply phase_entry_inside. lra.
    + apply phase_entry_outside.
Qed.

(** Whatever the curvature radius, [concave_endface] ends in a field as
    soon as the wavelength is not zero. *)
Lemma outcome_concave_endface (self : SMF28Simulator)
    (curvature_radius aperture_factor distance : R) :
  wavelength self <> 0 ->
  let aperture_radius := core_radius self * aperture_factor in
  let axis := linspace (- physical_size self / 2) (physical_size self / 2) (grid_size self) in
  outcome (concave_endface self curvature_radius aperture_factor distance) =
  inr (Fresnel
         (CircAperture
            (SubPhase (create_fiber_mode self)
               (map (map (phase_entry (2 * PI / wavelength self) curvature_radius
                                      aperture_radius))
                    (radial_grid axis axis)))
            aperture_radius)
         distance).
Proof.
  intros Hwl. unfold concave_endface.
  rewrite float_truediv_nonzero by exact Hwl. rewrite py_bind_ret.
  rewrite outcome_bind. unfold concave_phase_mask. rewrite outcome_bind.
  reflexivity.
Qed.

(** C7 (as amended).  The propagation step produces its result whatever
    the sampling: [flat_endface] returns the propagated mode and emits no
    warning, [concave_endface] never emits a SamplingWarning and, for a
    non-zero wavelength, ends in a field; neither consults the sampling
    criterion. *)
Theorem endface_no_sampling_check (self : SMF28Simulator)
    (curvature_radius aperture_factor distance : R) :
  flat_endface self distance = mret (Fresnel (create_fiber_mode self) distance) /\
  (SamplingWarning ∉
     warnings (concave_endface self curvature_radius aperture_factor distance)) /\
  (wavelength self <> 0 ->
   exists beam,
     outcome (concave_endface self curvature_radius aperture_factor distance) = inr beam).
Proof.
  split; [reflexivity|]. split.
  - unfold concave_endface, concave_phase_mask, float_truediv, np_array_truediv.
    unfold mbind, Py_bind, py_bind, mret, Py_ret, py_ret, py_raise.
    destruct (Req_dec_T (wavelength self) 0); simpl; [apply not_elem_of_nil|].
    repeat match goal with
           | |- context [if ?c then _ else _] => destruct c
           end; simpl;
      intros H; repeat (apply elem_of_cons in H as [H|H]; [discriminate|]);
      inversion H.
  - intros Hwl. eexists. now apply outcome_concave_endface.
Qed.

End Pipelines.

Lemma concave_endface_pipeline_witness :
  exists phase_mask,
    concave_endface (bench spot) 50e-6 2 1e-3 =
    mret (@Fresnel SampleArrays
            (CircAperture (SubPhase (create_fiber_mode (bench spot)) phase_mask)
                          (4.5e-6 * 2))
            1e-3) /\
    length phase_mask = 4%nat.
Proof.
  destruct (@concave_endface_pipeline SampleArrays (bench spot) 50e-6 2 1e-3)
    as (mask & Hrun & Hlen & _).
  - lra.
  - simpl. lra.
  - exists mask. split; [exact Hrun|exact Hlen].
Defined.

Lemma endface_no_sampling_check_witness :
  exists beam : @Field SampleArrays,
    outcome (concave_endface (bench spot) 50e-6 2 1e8) = inr beam.
Proof.
  destruct (@endface_no_sampling_check SampleArrays (bench spot) 50e-6 2 1e8)
    as (_ & _ & H).
  apply H. simpl. lra.
Defined.

(** The default simulator breaks the sampling criterion already at the
    default distance of 1 mm. *)
Lemma default_sampling_violated (self : @SMF28Simulator SampleArrays) (distance : R) :
  init = mret self -> 1e-3 <= distance -> ~ sampling_criterion self distance.
Proof.
  intros Hinit Hd.
  destruct (@init_with_pos SampleArrays 1550e-9 4.5e-6 0.12) as (m & Hrun & _);
    [lra..|].
  unfold init in Hinit. rewrite Hrun in Hinit. injection Hinit as <-.
  unfold sampling_criterion. cbn [wavelength grid_size physical_size].
  rewrite INR_IZR_INZ. change (Z.of_nat 512) with 512%Z. lra.
Qed.

(** C7 (as stated) fails: the default simulator at a distance of 1 m
    violates the sampling criterion, yet [flat_endface] hands back the
    propagated field and nothing is flagged. *)
Lemma flat_endface_unflagged :
  exists self : @SMF28Simulator SampleArrays,
    init = mret self /\
    ~ sampling_criterion self 1 /\
    outcome (flat_endface self 1) = inr (Fresnel (create_fiber_mode self) 1) /\
    warnings (flat_endface self 1) = [].
Proof.
  destruct (@init_with_pos SampleArrays 1550e-9 4.5e-6 0.12) as (m & Hrun & _);
    [lra..|].
  eexists. split; [exact Hrun|]. split.
  - apply default_sampling_violated; [exact Hrun|lra].
  - split; reflexivity.
Qed.

(** ** The parameter sweep *)

Section Sweep.
Context {LP : LightPipes}.

Lemma outcome_flat_prefix {B} (self : SMF28Simulator) (distance : R) (k : width -> Py B) :
  outcome (flat_beam ← flat_endface self distance;
           flat_analysis ← analyze_beam self flat_beam;
           wf ← get_beam_width flat_analysis;
           k wf) =
  match outcome (flat_width self distance) with
  | inl e => inl e
  | inr wf => outcome (k wf)
  end.
Proof.
  unfold flat_width. rewrite !outcome_bind.
  destruct (outcome (flat_endface self distance)) as [e|beam]; [reflexivity|].
  rewrite !outcome_bind.
  destruct (outcome (analyze_beam self beam)) as [e|analysis]; [reflexivity|].
  now rewrite outcome_bind.
Qed.

Lemma outcome_concave_prefix {B} (self : SMF28Simulator) (radius distance : R)
    (k : width -> Py B) :
  outcome (concave_beam ← concave_endface self radius 2.0 distance;
           concave_analysis ← analyze_beam self concave_beam;
           wc ← get_beam_width concave_analysis;
           k wc) =
  match outcome (concave_width self radius distance) with
  | inl e => inl e
  | inr wc => outcome (k wc)
  end.
Proof.
  unfold concave_width. rewrite !outcome_bind.
  destruct (outcome (concave_endface self radius 2.0 distance)) as [e|beam];
    [reflexivity|].
  rewrite !outcome_bind.
  destruct (outcome (analyze_beam self beam)) as [e|analysis]; [reflexivity|].
  now rewrite outcome_bind.
Qed.

(** One iteration of the loop. *)
Lemma outcome_sweep_cons (self : SMF28Simulator) (radius : R) (rest : list R)
    (distance : R) (acc : list width * list width) :
  outcome (sweep self (radius :: rest) distance acc) =
  match outcome (flat_width self distance) with
  | inl e => inl e
  | inr wf =>
      match outcome (concave_width self radius distance) with
      | inl e => inl e
      | inr wc => outcome (sweep self rest distance (acc.1 ++ [wf], acc.2 ++ [wc]))
      end
  end.
Proof.
  cbn [sweep]. rewrite outcome_flat_prefix.
  destruct (outcome (flat_width self distance)) as [e|wf]; [reflexivity|].
  apply outcome_concave_prefix.
Qed.

(** The loop, by induction on the radii still to visit: every iteration
    appends the same flat width. *)
Lemma outcome_sweep (self : SMF28Simulator) (radii : list R) (distance : R)
    (acc : list width * list width) :
  outcome (sweep self radii distance acc) =
  match radii with
  | [] => inr acc
  | _ :: _ =>
      match outcome (flat_width self distance) with
      | inl e => inl e
      | inr wf =>
          match outcome (sweep_concave self radii distance acc.2) with
          | inl e => inl e
          | inr concaves => inr (acc.1 ++ repeat wf (length radii), concaves)
          end
      end
  end.
Proof.
  revert acc. induction radii as [|radius rest IH]; intros acc; [reflexivity|].
  rewrite outcome_sweep_cons.
  destruct (outcome (flat_width self distance)) as [e|wf] eqn:Hflat; [reflexivity|].
  cbn [sweep_concave]. rewrite outcome_bind.
  destruct (outcome (concave_width self radius distance)) as [e|wc]; [reflexivity|].
  rewrite IH. cbn [fst snd]. destruct rest as [|radius' rest'].
  - reflexivity.
  - destruct (outcome (sweep_concave _ _ _ _)) as [e|concaves]; [reflexivity|].
    cbn [length repeat]. now rewrite <- app_assoc.
Qed.



(** C5 (as amended).  The summary divides the last concave width by the
    last flat width without a guard: for finite widths with a non-zero
    flat width the percentage is (concave/flat − 1) × 100, a finite number,
    computed without exception or warning. *)
Theorem divergence_increase_nonzero (concave flat : width) (c f : R) :
  width_value concave = Some c -> width_value flat = Some f -> f <> 0 ->
  divergence_increase concave flat = mret (Fin ((c / f - 1) * 100)).
Proof.
  intros Hc Hf Hne. unfold divergence_increase.
  destruct concave as [a|[x| | |]], flat as [b|[y| | |]]; try discriminate;
    injection Hc as <-; injection Hf as <-; cbn [width_truediv].
  - destruct (Z.eqb_spec b 0) as [->|_]; [now contradiction Hne|].
    now rewrite py_bind_ret.
  - rewrite np_truediv_nonzero by exact Hne. now rewrite py_bind_ret.
  - rewrite np_truediv_nonzero by exact Hne. now rewrite py_bind_ret.
  - rewrite np_truediv_nonzero by exact Hne. now rewrite py_bind_ret.
Qed.

End Sweep.


Lemma divergence_increase_nonzero_witness :
  divergence_increase (NpFloat64 (Fin 3)) (NpFloat64 (Fin 2)) =
  mret (Fin ((3 / 2 - 1) * 100)).
Proof.
  apply (divergence_increase_nonzero (NpFloat64 (Fin 3)) (NpFloat64 (Fin 2)) 3 2).
  - reflexivity.
  - reflexivity.
  - lra.
Defined.

(** C5 (as stated) fails: with a flat width of 0, the integer of the
    degenerate branch, against a concave width that is also that 0, the
    summary divides by zero and raises. *)
Lemma print_summary_zero_flat :
  outcome (print_summary [PyInt 0] [PyInt 0]) = inl ZeroDivisionError.
Proof. reflexivity. Qed.

(** Against a numpy width the division by a flat width of 0 does not
    raise; it warns and the percentage is infinite. *)
Lemma print_summary_zero_flat_numpy :
  print_summary [PyInt 0] [NpFloat64 (Fin 1e-4)] = MkPy [RuntimeWarning] (inr PInf).
Proof.
  unfold print_summary, last_item, divergence_increase. rewrite !py_bind_ret.
  cbn [List.last width_truediv]. unfold np_truediv, np_div_warns, np_div_value.
  destruct (Req_dec_T (IZR 0) 0) as [_|Hne]; [|now contradiction Hne].
  destruct (Req_dec_T 1e-4 0) as [Heq|_]; [lra|].
  destruct (Rlt_dec 0 1e-4) as [_|Hn]; [reflexivity|lra].
Qed.

(** The whole study on a dark field: both analyses take the [else]
    branch and the summary raises. *)
Lemma study_dark_raises :
  outcome (study (bench dark) [50e-6] 1e-3) = inl ZeroDivisionError.
Proof.
  pose proof (@analyze_beam_else SampleArrays (bench dark) dark [0; 0; 0; 0] 0
                dark_center_row dark_maximum dark_never_above) as Hrun.
  assert (Hget : forall w, get_beam_width (metrics (bench dark) dark [0; 0; 0; 0] 0 w)
                           = mret w).
  { intros w. unfold get_beam_width, metrics.
    rewrite lookup_insert_ne by done. now rewrite lookup_insert_eq. }
  assert (Hprofile : forall w, get_x_profile (metrics (bench dark) dark [0; 0; 0; 0] 0 w)
                               = mret [0; 0; 0; 0]).
  { intros w. unfold get_x_profile, metrics.
    rewrite !lookup_insert_ne by done. now rewrite lookup_insert_eq. }
  assert (Hconcave : outcome (concave_endface (bench dark) 50e-6 2.0 1e-3)
                     = inr (dark : @Field SampleArrays)).
  { rewrite outcome_concave_endface by (simpl; lra). reflexivity. }
  assert (Hflat : outcome (flat_width (bench dark) 1e-3) = inr (PyInt 0)).
  { unfold flat_width, flat_endface. rewrite py_bind_ret.
    change (Fresnel (create_fiber_mode (bench dark)) 1e-3) with (dark : @Field SampleArrays).
    now rewrite Hrun, py_bind_ret, Hget. }
  assert (Hcw : outcome (concave_width (bench dark) 50e-6 1e-3) = inr (PyInt 0)).
  { unfold concave_width. rewrite outcome_bind, Hconcave.
    now rewrite Hrun, py_bind_ret, Hget. }
  assert (Hnorm : outcome (normalize_profile [0; 0; 0; 0])
                  = inr (map (fun x => np_div_value (Fin x) (Fin (Rmax (Rmax (Rmax 0 0) 0) 0)))
                             [0; 0; 0; 0])).
  { unfold normalize_profile, np_max. now rewrite py_bind_ret. }
  assert (Hfig : outcome (comparison_figure (bench dark) 1e-3) = inr tt).
  { unfold comparison_figure, flat_endface. rewrite py_bind_ret.
    change (Fresnel (create_fiber_mode (bench dark)) 1e-3) with (dark : @Field SampleArrays).
    rewrite outcome_bind, Hconcave.
    rewrite Hrun, !py_bind_ret, !Hget, !py_bind_ret, !Hprofile, !py_bind_ret.
    rewrite outcome_bind, Hnorm, outcome_bind, Hnorm. reflexivity. }
  unfold study. rewrite outcome_bind, outcome_sweep, Hflat.
  cbn [sweep_concave snd fst]. rewrite outcome_bind, Hcw. cbn [outcome mret Py_ret py_ret].
  cbn [app length repeat]. rewrite outcome_bind, Hfig. reflexivity.
Qed.

(** ** The launcher *)

(** The exit status is 0 whenever the shell could be spawned or the
    file is missing, whatever became of the simulation. *)
Lemma script_exit_code_zero (env : Launcher.environment) :
  Launcher.simulation_file_exists env = false \/
  Launcher.conda_run env <> Launcher.SpawnFailed ->
  Launcher.script_exit_code env = 0%Z.
Proof.
  unfold Launcher.script_exit_code, Launcher.main, Launcher.subprocess_run_check.
  destruct env as [[|] [rc|]]; cbn; intros [H|H];
    try congruence; try reflexivity; now destruct (Z.eqb rc 0).
Qed.

(** C10 at a failing input: the simulation file is present, the
    simulation exits with status 1, and the launcher exits with status 0. *)
Theorem launcher_drops_failure :
  let env := {| Launcher.simulation_file_exists := true;
                Launcher.conda_run := Launcher.Exited 1 |} in
  outcome (Launcher.main env) = inr false /\
  ~ Launcher.simulation_succeeded env /\
  Launcher.script_exit_code env = 0%Z.
Proof.
  cbn. split; [reflexivity|]. split; [|reflexivity].
  intros [_ H]. discriminate.
Qed.

(** * Further properties of the code *)

(** ** [analyze_beam]: errors, result, bounds *)

Section AnalysisMore.
Context {LP : LightPipes}.

Lemma length_Intensity (beam : Field) : length (Intensity beam) = length (field beam).
Proof. unfold Intensity. apply length_map. Qed.

Lemma Rdiv_nonneg (x y : R) : 0 <= x -> 0 < y -> 0 <= x / y.
Proof.
  intros Hx Hy. unfold Rdiv. apply Rmult_le_pos; [exact Hx|].
  left. now apply Rinv_0_lt_compat.
Qed.

Lemma sqmag_nonneg (z : R * R) : 0 <= sqmag z.
Proof. unfold sqmag. nra. Qed.

Lemma Intensity_nonneg (beam : Field) (x : R) : x ∈ concat (Intensity beam) -> 0 <= x.
Proof.
  intros Hx. apply list_elem_of_In, in_concat in Hx as (row & Hrow & Hx).
  unfold Intensity in Hrow. apply in_map_iff in Hrow as (r & <- & _).
  apply in_map_iff in Hx as (z & <- & _). apply sqmag_nonneg.
Qed.

(** [analyze_beam] ends in a value exactly through [analyze_beam_run]. *)
Lemma analyze_beam_inv (self : SMF28Simulator) (beam : Field) (d : gmap string pyval) :
  outcome (analyze_beam self beam) = inr d ->
  exists row m w,
    Intensity beam !! (grid_size self / 2)%nat = Some row /\
    is_maximum m (concat (Intensity beam)) /\
    d = metrics self beam row m w /\
    match where_gt (m / exp 1 ^ 2) row 0 with
    | first :: rest =>
        w = NpFloat64
              (np_div_value
                 (Fin (IZR (Z.of_nat (List.last (first :: rest) first) - Z.of_nat first)
                       * physical_size self))
                 (Fin (INR (grid_size self))))
    | [] => w = PyInt 0
    end.
Proof.
  destruct (Intensity beam !! (grid_size self / 2)%nat) as [row|] eqn:Hrow.
  2:{ unfold analyze_beam. rewrite Hrow. discriminate. }
  destruct (concat (Intensity beam)) as [|x rest] eqn:Hcat.
  { unfold analyze_beam. rewrite Hrow, py_bind_ret, Hcat. discriminate. }
  pose proof (fold_left_Rmax rest x) as Hmax. rewrite <- Hcat in Hmax.
  set (m := fold_left Rmax rest x) in *.
  rewrite (analyze_beam_run self beam row m Hrow Hmax).
  destruct (where_gt (m / exp 1 ^ 2) row 0) as [|first others] eqn:Hw.
  - intros [= <-]. exists row, m, (PyInt 0). rewrite Hw, <- Hcat.
    split; [reflexivity|]. split; [exact Hmax|]. split; reflexivity.
  - rewrite outcome_bind. cbn [np_truediv outcome]. intros [= <-].
    exists row, m. eexists. rewrite Hw, <- Hcat.
    split; [reflexivity|]. split; [exact Hmax|]. split; reflexivity.
Qed.

(** X1.  [analyze_beam] raises IndexError exactly when the field has no
    row of index grid_size // 2, raises ValueError exactly when that row
    exists but the array holds no sample at all, and returns a result in
    every other case. *)
Theorem analyze_beam_errors (self : SMF28Simulator) (beam : Field) :
  ((length (field beam) <= grid_size self / 2)%nat ->
   analyze_beam self beam = py_raise IndexError) /\
  ((grid_size self / 2 < length (field beam))%nat ->
   concat (Intensity beam) = [] ->
   analyze_beam self beam = py_raise ValueError) /\
  ((grid_size self / 2 < length (field beam))%nat ->
   concat (Intensity beam) <> [] ->
   exists d, outcome (analyze_beam self beam) = inr d).
Proof.
  split; [|split].
  - intros Hlen. unfold analyze_beam.
    rewrite (lookup_ge_None_2 (Intensity beam)) by (rewrite length_Intensity; lia).
    reflexivity.
  - intros Hlen Hcat. unfold analyze_beam.
    destruct (lookup_lt_is_Some_2 (Intensity beam) (grid_size self / 2)%nat) as [row Hrow].
    { rewrite length_Intensity. lia. }
    rewrite Hrow, py_bind_ret, Hcat. reflexivity.
  - intros Hlen Hcat.
    destruct (lookup_lt_is_Some_2 (Intensity beam) (grid_size self / 2)%nat) as [row Hrow].
    { rewrite length_Intensity. lia. }
    destruct (concat (Intensity beam)) as [|x rest] eqn:E; [congruence|].
    pose proof (fold_left_Rmax rest x) as Hmax. rewrite <- E in Hmax.
    rewrite (analyze_beam_run self beam row _ Hrow Hmax).
    destruct (where_gt _ row 0); [eexists; reflexivity|].
    rewrite outcome_bind. cbn [np_truediv outcome]. eexists; reflexivity.
Qed.

(** X2.  Whatever [analyze_beam] returns has exactly the five keys, and
    the look-ups its callers make succeed: ['beam_width'] is a width,
    ['x_profile'] is the centre row of the intensity, and
    ['max_intensity'] is the maximum of the whole intensity array, which is
    not negative. *)
Theorem analyze_beam_result (self : SMF28Simulator) (beam : Field) (d : gmap string pyval) :
  outcome (analyze_beam self beam) = inr d ->
  dom d = metric_keys /\
  (exists w, get_beam_width d = mret w) /\
  (exists row, get_x_profile d = mret row /\
               Intensity beam !! (grid_size self / 2)%nat = Some row) /\
  (exists m, d !! "max_intensity" = Some (VFloat m) /\
             is_maximum m (concat (Intensity beam)) /\ 0 <= m).
Proof.
  intros Hd. apply analyze_beam_inv in Hd as (row & m & w & Hrow & Hmax & -> & _).
  split; [apply metrics_dom|]. split; [|split].
  - exists w. unfold get_beam_width, metrics.
    rewrite lookup_insert_ne by done. now rewrite lookup_insert_eq.
  - exists row. split; [|exact Hrow]. unfold get_x_profile, metrics.
    rewrite !lookup_insert_ne by done. now rewrite lookup_insert_eq.
  - exists m. split; [metric_lookup|]. split; [exact Hmax|].
    apply (Intensity_nonneg beam). apply Hmax.
Qed.

Lemma on_grid_center_row_length (self : SMF28Simulator) (beam : Field) (row : list R) :
  on_grid self beam ->
  Intensity beam !! (grid_size self / 2)%nat = Some row ->
  length row = grid_size self.
Proof.
  intros [_ Hrows] Hrow. unfold Intensity in Hrow.
  rewrite list_lookup_fmap in Hrow.
  destruct (field beam !! (grid_size self / 2)%nat) as [r|] eqn:Hr; [|discriminate].
  injection Hrow as <-. rewrite length_map.
  rewrite Forall_forall in Hrows. apply Hrows. eapply list_elem_of_lookup_2, Hr.
Qed.

Lemma above_lt_length (t : R) (row : list R) (i : nat) :
  above t row i -> (i < length row)%nat.
Proof. intros (x & Hx & _). eapply lookup_lt_Some, Hx. Qed.

(** The first and the last index found are in range and in order. *)
Lemma where_gt_span (t : R) (row : list R) (first : nat) (rest : list nat) :
  where_gt t row 0 = first :: rest ->
  (first <= List.last (first :: rest) first < length row)%nat.
Proof.
  intros E.
  assert (Hf : first ∈ where_gt t row 0) by (rewrite E; left).
  pose proof (where_gt_last t row 0 first first Hf) as Hle. rewrite E in Hle.
  assert (Hl : List.last (first :: rest) first ∈ where_gt t row 0).
  { rewrite E. now apply last_elem_of. }
  apply elem_of_where_gt in Hl as [_ Hl]. rewrite Nat.sub_0_r in Hl.
  apply above_lt_length in Hl. lia.
Qed.

(** X3.  On a field of the simulator's grid, with N > 0 and a window
    size L ≥ 0, the beam width returned is a finite number between 0 and
    (N − 1)·L/N: never negative and never as wide as the window. *)
Theorem beam_width_bounds (self : SMF28Simulator) (beam : Field) :
  (0 < grid_size self)%nat -> 0 <= physical_size self -> on_grid self beam ->
  exists d w x,
    analyze_beam self beam = mret d /\
    d !! "beam_width" = Some (VWidth w) /\
    width_value w = Some x /\
    0 <= x <= INR (grid_size self - 1) * physical_size self / INR (grid_size self).
Proof.
  intros Hpos HL Hgrid.
  destruct (on_grid_center_row self beam Hpos Hgrid) as (row & Hrow & Hne).
  destruct (concat_maximum _ _ _ Hrow Hne) as [m Hmax].
  pose proof (on_grid_center_row_length self beam row Hgrid Hrow) as Hlen.
  assert (HN : 0 < INR (grid_size self)) by (apply lt_0_INR; lia).
  rewrite (analyze_beam_run self beam row m Hrow Hmax).
  destruct (where_gt (m / exp 1 ^ 2) row 0) as [|first rest] eqn:E.
  - eexists _, (PyInt 0), 0. split; [reflexivity|]. split; [metric_lookup|].
    split; [reflexivity|]. split; [lra|].
    apply Rdiv_nonneg; [|exact HN].
    apply Rmult_le_pos; [apply pos_INR|exact HL].
  - rewrite np_truediv_nonzero by lra. rewrite py_bind_ret.
    pose proof (where_gt_span _ _ _ _ E) as [Hlo Hhi]. rewrite Hlen in Hhi.
    set (last := List.last (first :: rest) first) in *.
    eexists _, _, _. split; [reflexivity|]. split; [metric_lookup|].
    split; [reflexivity|].
    rewrite <- Nat2Z.inj_sub, <- INR_IZR_INZ by exact Hlo.
    assert (Hd : 0 <= INR (last - first) <= INR (grid_size self - 1)).
    { split; [apply pos_INR|apply le_INR; lia]. }
    split.
    + apply Rdiv_nonneg; [|exact HN]. apply Rmult_le_pos; lra.
    + apply Rmult_le_compat_r; [left; now apply Rinv_0_lt_compat|].
      apply Rmult_le_compat_r; lra.
Qed.

End AnalysisMore.

Lemma analyze_beam_errors_witness :
  analyze_beam (bench []) ([] : @Field SampleArrays) = py_raise IndexError /\
  analyze_beam (bench [[]; []; []]) ([[]; []; []] : @Field SampleArrays)
  = py_raise ValueError.
Proof.
  split.
  - apply (@analyze_beam_errors SampleArrays (bench []) []). simpl. lia.
  - apply (@analyze_beam_errors SampleArrays (bench [[]; []; []]) [[]; []; []]).
    + simpl. lia.
    + reflexivity.
Defined.

Lemma analyze_beam_result_witness :
  dom (metrics (bench dark) (dark : @Field SampleArrays) [0; 0; 0; 0] 0 (PyInt 0))
  = metric_keys /\
  exists w, get_beam_width
              (metrics (bench dark) (dark : @Field SampleArrays) [0; 0; 0; 0] 0 (PyInt 0))
            = mret w.
Proof.
  destruct (@analyze_beam_result SampleArrays (bench dark) dark
              (metrics (bench dark) (dark : @Field SampleArrays) [0; 0; 0; 0] 0 (PyInt 0)))
    as (Hdom & Hw & _).
  - now rewrite (@analyze_beam_else SampleArrays (bench dark) dark [0; 0; 0; 0] 0
                   dark_center_row dark_maximum dark_never_above).
  - split; assumption.
Defined.

Lemma beam_width_bounds_witness :
  exists d w x,
    analyze_beam (bench spot) spot = mret d /\
    d !! "beam_width" = Some (VWidth w) /\
    width_value w = Some x /\
    0 <= x <= INR (4 - 1) * 4 / INR 4.
Proof.
  apply (@beam_width_bounds SampleArrays (bench spot) spot).
  - simpl. lia.
  - simpl. lra.
  - exact spot_on_grid.
Defined.

Section AnalysisShape.
Context {LP : LightPipes}.

Lemma threshold_below_max (m : R) : 0 < m -> m / exp 1 ^ 2 < m.
Proof.
  intros Hm. pose proof exp1_sq_gt_1 as He.
  apply (Rmult_lt_reg_r (exp 1 ^ 2)); [lra|].
  unfold Rdiv. rewrite Rmult_assoc, Rinv_l by lra. nra.
Qed.

(** X4.  With a dark array (maximum 0) the width is the integer 0 of the
    [else] branch; when the maximum is positive and attained on the centre
    row, the width is a finite numpy number computed from the indices. *)
Theorem beam_width_kind (self : SMF28Simulator) (beam : Field) (row : list R) (m : R) :
  Intensity beam !! (grid_size self / 2)%nat = Some row ->
  is_maximum m (concat (Intensity beam)) ->
  (m = 0 -> analyze_beam self beam = mret (metrics self beam row m (PyInt 0))) /\
  (0 < m -> m ∈ row -> grid_size self <> 0%nat ->
   exists x, analyze_beam self beam = mret (metrics self beam row m (NpFloat64 (Fin x)))).
Proof.
  intros Hrow Hmax. split.
  - intros ->. apply analyze_beam_else; [exact Hrow|exact Hmax|].
    intros i (x & Hx & Hlt). unfold Rdiv in Hlt. rewrite Rmult_0_l in Hlt.
    assert (Hin : x ∈ concat (Intensity beam)).
    { apply list_elem_of_In, in_concat. exists row. split; apply list_elem_of_In.
      - eapply list_elem_of_lookup_2, Hrow.
      - eapply list_elem_of_lookup_2, Hx. }
    apply Hmax in Hin. lra.
  - intros Hm Hin HN. rewrite (analyze_beam_run self beam row m Hrow Hmax).
    apply list_elem_of_lookup_1 in Hin as [i Hi].
    assert (Hi' : i ∈ where_gt (m / exp 1 ^ 2) row 0).
    { apply elem_of_where_gt. split; [lia|]. rewrite Nat.sub_0_r.
      exists m. split; [exact Hi|now apply threshold_below_max]. }
    destruct (where_gt (m / exp 1 ^ 2) row 0) as [|first rest]; [inversion Hi'|].
    rewrite np_truediv_nonzero by (apply not_0_INR; exact HN).
    rewrite py_bind_ret. eexists. reflexivity.
Qed.

Lemma where_gt_scale (k t : R) (row : list R) (i : nat) :
  0 < k -> where_gt (k * t) (map (Rmult k) row) i = where_gt t row i.
Proof.
  intros Hk. revert i. induction row as [|x row IH]; intros i; [reflexivity|].
  cbn [map where_gt]. rewrite IH.
  destruct (Rlt_dec (k * t) (k * x)) as [H1|H1], (Rlt_dec t x) as [H2|H2];
    try reflexivity; exfalso.
  - apply H2. now apply Rmult_lt_reg_l in H1.
  - apply H1. now apply Rmult_lt_compat_l.
Qed.

Lemma is_maximum_scale (k m : R) (a : list R) :
  0 < k -> is_maximum m a -> is_maximum (k * m) (map (Rmult k) a).
Proof.
  intros Hk [Hin Hub]. split.
  - apply list_elem_of_In, in_map, list_elem_of_In, Hin.
  - intros y Hy. apply list_elem_of_In, in_map_iff in Hy as (x & <- & Hx).
    apply Rmult_le_compat_l; [lra|]. apply Hub, list_elem_of_In, Hx.
Qed.

Lemma Intensity_scale (c : R) (beam beam' : Field) :
  field beam' = scale_samples c (field beam) ->
  Intensity beam' = map (map (Rmult (c * c))) (Intensity beam).
Proof.
  intros Hf. unfold Intensity, scale_samples in *. rewrite Hf, !map_map.
  apply map_ext. intros r. rewrite !map_map. apply map_ext. intros [re im].
  unfold sqmag. simpl. ring.
Qed.

(** X5.  The beam width does not depend on the overall amplitude: if
    every sample of a field is multiplied by the same non-zero real factor,
    [analyze_beam] returns the same beam width. *)
Theorem beam_width_scale_invariant (self : SMF28Simulator) (beam beam' : Field)
    (c : R) (d : gmap string pyval) :
  c <> 0 ->
  field beam' = scale_samples c (field beam) ->
  outcome (analyze_beam self beam) = inr d ->
  exists d',
    outcome (analyze_beam self beam') = inr d' /\
    d' !! "beam_width" = d !! "beam_width".
Proof.
  intros Hc Hf Hd.
  apply analyze_beam_inv in Hd as (row & m & w & Hrow & Hmax & -> & Hw).
  assert (Hk : 0 < c * c) by nra.
  pose proof (Intensity_scale c beam beam' Hf) as HI.
  assert (Hrow' : Intensity beam' !! (grid_size self / 2)%nat
                  = Some (map (Rmult (c * c)) row)).
  { now rewrite HI, list_lookup_fmap, Hrow. }
  assert (Hmax' : is_maximum (c * c * m) (concat (Intensity beam'))).
  { rewrite HI, <- concat_map. now apply is_maximum_scale. }
  rewrite (analyze_beam_run self beam' _ _ Hrow' Hmax').
  replace (c * c * m / exp 1 ^ 2) with (c * c * (m / exp 1 ^ 2))
    by (unfold Rdiv; ring).
  rewrite where_gt_scale by exact Hk.
  destruct (where_gt (m / exp 1 ^ 2) row 0) as [|first rest].
  - eexists. split; [reflexivity|]. subst w. unfold metrics.
    now rewrite !(lookup_insert_ne _ "intensity") by done.
  - rewrite outcome_bind. cbn [np_truediv outcome].
    eexists. split; [reflexivity|]. subst w. unfold metrics.
    now rewrite !(lookup_insert_ne _ "intensity"), !lookup_insert_eq by done.
Qed.

Lemma linspace_lookup (start stop : R) (num i : nat) :
  (i < num)%nat ->
  linspace start stop num !! i = Some (start + INR i * ((stop - start) / INR (num - 1))).
Proof.
  intros Hi. unfold linspace. rewrite list_lookup_fmap, lookup_seq_lt by exact Hi.
  reflexivity.
Qed.

(** X6.  The reported beam width is not the distance between the
    coordinates of the two samples it is measured from: it is that
    distance times (N − 1)/N, because [x_coords] steps by L/(N − 1) and the
    width is scaled by L/N. *)
Theorem beam_width_in_coordinates (self : SMF28Simulator) (beam : Field)
    (row : list R) (m : R) (i j : nat) :
  (2 <= grid_size self)%nat ->
  Intensity beam !! (grid_size self / 2)%nat = Some row ->
  length row = grid_size self ->
  is_maximum m (concat (Intensity beam)) ->
  is_first_above (m / exp 1 ^ 2) row i ->
  is_last_above (m / exp 1 ^ 2) row j ->
  exists d xs xi xj w,
    analyze_beam self beam = mret d /\
    d !! "x_coords" = Some (VArr1 xs) /\
    xs !! i = Some xi /\ xs !! j = Some xj /\
    d !! "beam_width" = Some (VWidth (NpFloat64 (Fin w))) /\
    w = (xj - xi) * (INR (grid_size self - 1) / INR (grid_size self)).
Proof.
  intros HN Hrow Hlen Hmax Hi Hj.
  rewrite (analyze_beam_run self beam row m Hrow Hmax).
  assert (Hin : i ∈ where_gt (m / exp 1 ^ 2) row 0).
  { apply elem_of_where_gt. split; [lia|]. rewrite Nat.sub_0_r. apply Hi. }
  destruct (where_gt (m / exp 1 ^ 2) row 0) as [|first rest] eqn:E; [inversion Hin|].
  rewrite <- E, (where_gt_last_above _ _ j first Hj).
  rewrite (where_gt_first_above _ _ i first rest E Hi).
  assert (HNr : INR (grid_size self) <> 0) by (apply not_0_INR; lia).
  assert (HN1 : INR (grid_size self - 1) <> 0) by (apply not_0_INR; lia).
  rewrite np_truediv_nonzero by exact HNr. rewrite py_bind_ret.
  pose proof (above_lt_length _ _ _ (proj1 Hi)) as Hil.
  pose proof (above_lt_length _ _ _ (proj1 Hj)) as Hjl.
  rewrite Hlen in Hil, Hjl.
  eexists _, _, _, _, _. split; [reflexivity|]. split; [metric_lookup|].
  split; [now apply linspace_lookup|]. split; [now apply linspace_lookup|].
  split; [metric_lookup|].
  rewrite minus_IZR, <- !INR_IZR_INZ. field. split; assumption.
Qed.

(** X7.  The coordinate axis stored under ['x_coords'] has N entries,
    starts at −L/2, ends at L/2 and is antisymmetric about the centre of
    the window (for N ≥ 2). *)
Theorem x_coords_axis (self : SMF28Simulator) (beam : Field) (d : gmap string pyval) :
  (2 <= grid_size self)%nat ->
  outcome (analyze_beam self beam) = inr d ->
  exists xs,
    d !! "x_coords" = Some (VArr1 xs) /\
    length xs = grid_size self /\
    xs !! 0%nat = Some (- physical_size self / 2) /\
    xs !! (grid_size self - 1)%nat = Some (physical_size self / 2) /\
    forall i x, xs !! i = Some x -> xs !! (grid_size self - 1 - i)%nat = Some (- x).
Proof.
  intros HN Hd. apply analyze_beam_inv in Hd as (row & m & w & _ & _ & -> & _).
  assert (HN1 : INR (grid_size self - 1) <> 0) by (apply not_0_INR; lia).
  eexists. split; [metric_lookup|]. split; [apply length_linspace|].
  split; [|split].
  - rewrite linspace_lookup by lia. f_equal. simpl. ring.
  - rewrite linspace_lookup by lia. f_equal. field. exact HN1.
  - intros i x Hx.
    assert (Hi : (i < grid_size self)%nat).
    { apply lookup_lt_Some in Hx. now rewrite length_linspace in Hx. }
    rewrite linspace_lookup in Hx by exact Hi. injection Hx as <-.
    rewrite linspace_lookup by lia. f_equal.
    replace (grid_size self - 1 - i)%nat with ((grid_size self - 1) - i)%nat by lia.
    rewrite minus_INR by lia. field. exact HN1.
Qed.

End AnalysisShape.

Lemma spot_where : where_gt (1 / exp 1 ^ 2) [0; 1; 1; 0] 0 = [1%nat; 2%nat].
Proof.
  pose proof spot_threshold as Ht. cbn [where_gt].
  destruct (Rlt_dec (1 / exp 1 ^ 2) 0) as [H0|_]; [lra|].
  destruct (Rlt_dec (1 / exp 1 ^ 2) 1) as [_|H1]; [reflexivity|lra].
Qed.

Lemma spot_run :
  analyze_beam (bench spot) spot =
  mret (metrics (bench spot) (spot : @Field SampleArrays) [0; 1; 1; 0] 1
          (NpFloat64 (Fin (IZR (Z.of_nat 2 - Z.of_nat 1) * 4 / INR 4)))).
Proof.
  rewrite (@analyze_beam_run SampleArrays (bench spot) spot [0; 1; 1; 0] 1
             spot_center_row spot_maximum).
  rewrite spot_where. cbn [List.last physical_size grid_size bench].
  rewrite np_truediv_nonzero by (apply not_0_INR; lia).
  now rewrite py_bind_ret.
Qed.

Lemma beam_width_kind_witness :
  exists x,
    analyze_beam (bench spot) spot =
    mret (metrics (bench spot) (spot : @Field SampleArrays) [0; 1; 1; 0] 1
            (NpFloat64 (Fin x))).
Proof.
  destruct (@beam_width_kind SampleArrays (bench spot) spot [0; 1; 1; 0] 1
              spot_center_row spot_maximum) as [_ H].
  apply H.
  - lra.
  - right. left.
  - simpl. lia.
Defined.

Lemma beam_width_scale_invariant_witness :
  exists d',
    outcome (analyze_beam (bench spot) (scale_samples 3 spot : @Field SampleArrays))
    = inr d' /\
    d' !! "beam_width" =
    metrics (bench spot) (spot : @Field SampleArrays) [0; 1; 1; 0] 1
      (NpFloat64 (Fin (IZR (Z.of_nat 2 - Z.of_nat 1) * 4 / INR 4))) !! "beam_width".
Proof.
  apply (@beam_width_scale_invariant SampleArrays (bench spot) spot
           (scale_samples 3 spot) 3).
  - lra.
  - reflexivity.
  - now rewrite spot_run.
Defined.

Lemma beam_width_in_coordinates_witness :
  exists d xs xi xj w,
    analyze_beam (bench spot) spot = mret d /\
    d !! "x_coords" = Some (VArr1 xs) /\
    xs !! 1%nat = Some xi /\ xs !! 2%nat = Some xj /\
    d !! "beam_width" = Some (VWidth (NpFloat64 (Fin w))) /\
    w = (xj - xi) * (INR (4 - 1) / INR 4).
Proof.
  apply (@beam_width_in_coordinates SampleArrays (bench spot) spot [0; 1; 1; 0] 1).
  - simpl. lia.
  - exact spot_center_row.
  - reflexivity.
  - exact spot_maximum.
  - exact spot_first.
  - exact spot_last.
Defined.

Lemma x_coords_axis_witness :
  exists xs,
    metrics (bench spot) (spot : @Field SampleArrays) [0; 1; 1; 0] 1
      (NpFloat64 (Fin (IZR (Z.of_nat 2 - Z.of_nat 1) * 4 / INR 4))) !! "x_coords"
    = Some (VArr1 xs) /\
    length xs = 4%nat /\
    xs !! 0%nat = Some (- 4 / 2) /\
    xs !! 3%nat = Some (4 / 2).
Proof.
  destruct (@x_coords_axis SampleArrays (bench spot) spot
              (metrics (bench spot) (spot : @Field SampleArrays) [0; 1; 1; 0] 1
                 (NpFloat64 (Fin (IZR (Z.of_nat 2 - Z.of_nat 1) * 4 / INR 4)))))
    as (xs & Hxs & Hlen & H0 & HN & _).
  - simpl. lia.
  - now rewrite spot_run.
  - exists xs. repeat split; assumption.
Defined.

(** ** The end-face pipelines: errors, warnings and the phase mask *)

Section PipelinesMore.
Context {LP : LightPipes}.

Lemma warnings_concave_endface (self : SMF28Simulator)
    (curvature_radius aperture_factor distance : R) :
  wavelength self <> 0 ->
  let axis := linspace (- physical_size self / 2) (physical_size self / 2) (grid_size self) in
  let aperture_radius := core_radius self * aperture_factor in
  warnings (concave_endface self curvature_radius aperture_factor distance) =
  warnings
    (np_array_truediv
       (map (fun rho => 2 * PI / wavelength self * rho ^ 2)
            (List.filter (fun rho => if Rle_dec rho aperture_radius then true else false)
                         (concat (radial_grid axis axis))))
       (2 * curvature_radius)).
Proof.
  intros Hwl axis aperture_radius. unfold concave_endface.
  rewrite float_truediv_nonzero by exact Hwl. rewrite py_bind_ret.
  rewrite warnings_bind. unfold concave_phase_mask.
  rewrite outcome_bind, warnings_bind. cbn [np_array_truediv outcome warnings].
  cbn [mret Py_ret py_ret warnings]. now rewrite !app_nil_r.
Qed.

Lemma existsb_either_nonempty (a : list R) :
  (if existsb (fun x => if Req_dec_T x 0 then false else true) a
   then [RuntimeWarning] else []) ++
  (if existsb (fun x => if Req_dec_T x 0 then true else false) a
   then [RuntimeWarning] else []) <> [] <-> a <> [].
Proof.
  destruct a as [|x a]; [simpl; split; congruence|].
  split; [discriminate|]. intros _. cbn [existsb].
  destruct (Req_dec_T x 0); cbn [orb].
  - destruct (existsb _ a); discriminate.
  - discriminate.
Qed.

(** X9.  With a non-zero wavelength, [concave_endface] is silent for
    every non-zero curvature radius; with curvature radius 0 it still does
    not raise, and it emits a RuntimeWarning exactly when some grid point
    lies inside the aperture. *)
Theorem concave_endface_warnings (self : SMF28Simulator)
    (curvature_radius aperture_factor distance : R) :
  wavelength self <> 0 ->
  let axis := linspace (- physical_size self / 2) (physical_size self / 2) (grid_size self) in
  let aperture_radius := core_radius self * aperture_factor in
  (curvature_radius <> 0 ->
   warnings (concave_endface self curvature_radius aperture_factor distance) = []) /\
  (curvature_radius = 0 ->
   (warnings (concave_endface self curvature_radius aperture_factor distance) <> [] <->
    exists rho, rho ∈ concat (radial_grid axis axis) /\ rho <= aperture_radius)).
Proof.
  intros Hwl axis aperture_radius.
  rewrite (warnings_concave_endface self curvature_radius aperture_factor distance Hwl).
  fold axis aperture_radius. cbn [np_array_truediv warnings]. split.
  - intros Hcr. now destruct (Req_dec_T (2 * curvature_radius) 0); [lra|].
  - intros ->. destruct (Req_dec_T (2 * 0) 0) as [_|Hne]; [|lra].
    rewrite existsb_either_nonempty. split.
    + intros Hne.
      destruct (List.filter _ (concat (radial_grid axis axis))) as [|rho l] eqn:E;
        [now contradiction Hne|].
      assert (Hin : In rho (List.filter
                              (fun rho => if Rle_dec rho aperture_radius then true else false)
                              (concat (radial_grid axis axis)))) by (rewrite E; now left).
      apply filter_In in Hin as [Hin Hle]. exists rho. split; [now apply list_elem_of_In|].
      now destruct (Rle_dec rho aperture_radius).
    + intros (rho & Hin & Hle) E. apply map_eq_nil in E.
      assert (Hf : In rho (List.filter
                             (fun rho => if Rle_dec rho aperture_radius then true else false)
                             (concat (radial_grid axis axis)))).
      { apply filter_In. split; [now apply list_elem_of_In|].
        now destruct (Rle_dec rho aperture_radius). }
      rewrite E in Hf. contradiction.
Qed.

(** What [concave_phase_mask] returns, entry by entry. *)
Lemma phase_mask_entry (self : SMF28Simulator) (k cr ap : R) (mask : list (list npfloat))
    (i j : nat) :
  outcome (concave_phase_mask self k cr ap) = inr mask ->
  entry_at mask i j =
  match linspace (- physical_size self / 2) (physical_size self / 2) (grid_size self) !! i,
        linspace (- physical_size self / 2) (physical_size self / 2) (grid_size self) !! j
  with
  | Some y, Some x => Some (phase_entry k cr ap (sqrt (x ^ 2 + y ^ 2)))
  | _, _ => None
  end.
Proof.
  unfold concave_phase_mask. rewrite outcome_bind. cbn [np_array_truediv outcome].
  intros [= <-].
  set (axis := linspace (- physical_size self / 2) (physical_size self / 2)
                        (grid_size self)).
  unfold entry_at, radial_grid.
  rewrite !list_lookup_fmap.
  destruct (axis !! i) as [y|]; [|reflexivity]. cbn [fmap option_fmap option_map].
  rewrite !list_lookup_fmap. now destruct (axis !! j).
Qed.

Lemma linspace_mirror (L : R) (num i : nat) (x : R) :
  (2 <= num)%nat ->
  linspace (- L / 2) (L / 2) num !! i = Some x ->
  linspace (- L / 2) (L / 2) num !! (num - 1 - i)%nat = Some (- x).
Proof.
  intros HN Hx.
  assert (HN1 : INR (num - 1) <> 0) by (apply not_0_INR; lia).
  assert (Hi : (i < num)%nat).
  { apply lookup_lt_Some in Hx. now rewrite length_linspace in Hx. }
  rewrite linspace_lookup in Hx by exact Hi. injection Hx as <-.
  rewrite linspace_lookup by lia. f_equal.
  rewrite minus_INR by lia. field. exact HN1.
Qed.

(** X10.  The phase mask is symmetric: transposing it, or mirroring it
    about the centre of the window along either axis (for N ≥ 2), leaves
    every entry unchanged. *)
Theorem phase_mask_symmetric (self : SMF28Simulator) (k cr ap : R)
    (mask : list (list npfloat)) (i j : nat) :
  outcome (concave_phase_mask self k cr ap) = inr mask ->
  entry_at mask i j = entry_at mask j i /\
  ((2 <= grid_size self)%nat -> (i < grid_size self)%nat ->
   entry_at mask (grid_size self - 1 - i) j = entry_at mask i j /\
   entry_at mask j (grid_size self - 1 - i) = entry_at mask j i).
Proof.
  intros Hmask.
  rewrite !(phase_mask_entry self k cr ap mask _ _ Hmask).
  set (axis := linspace _ _ _). split.
  - destruct (axis !! i) as [y|], (axis !! j) as [x|]; try reflexivity.
    now rewrite Rplus_comm.
  - intros HN Hi.
    destruct (lookup_lt_is_Some_2 axis i) as [y Hy].
    { unfold axis. now rewrite length_linspace. }
    pose proof (linspace_mirror _ _ _ _ HN Hy) as Hm. fold axis in Hm.
    rewrite Hm, Hy.
    split; destruct (axis !! j) as [x|]; try reflexivity;
      do 3 f_equal; ring.
Qed.

(** X11.  For a curvature radius R > 0 and k ≥ 0 every entry of the
    phase mask is a finite phase between 0 and k·aperture_radius²/(2·R). *)
Theorem phase_mask_bounds (self : SMF28Simulator) (k cr ap : R)
    (mask : list (list npfloat)) (i j : nat) (entry : npfloat) :
  0 < cr -> 0 <= k ->
  outcome (concave_phase_mask self k cr ap) = inr mask ->
  entry_at mask i j = Some entry ->
  exists phase, entry = Fin phase /\ 0 <= phase <= k * ap ^ 2 / (2 * cr).
Proof.
  intros Hcr Hk Hmask. rewrite (phase_mask_entry self k cr ap mask _ _ Hmask).
  destruct (_ !! i) as [y|]; [|discriminate].
  destruct (_ !! j) as [x|]; [|discriminate].
  intros Heq.
  replace entry with (phase_entry k cr ap (sqrt (x ^ 2 + y ^ 2))) by congruence.
  clear Heq. set (rho := sqrt (x ^ 2 + y ^ 2)).
  assert (Hrho : 0 <= rho) by apply sqrt_pos.
  assert (Hub : 0 <= k * ap ^ 2 / (2 * cr)).
  { apply Rdiv_nonneg; [|lra]. apply Rmult_le_pos; [exact Hk|]. apply pow2_ge_0. }
  destruct (Rle_dec rho ap) as [Hin|Hout].
  - rewrite phase_entry_inside by lra. eexists. split; [reflexivity|]. split.
    + apply Rdiv_nonneg; [|lra]. apply Rmult_le_pos; [exact Hk|]. apply pow2_ge_0.
    + apply Rmult_le_compat_r; [left; apply Rinv_0_lt_compat; lra|].
      apply Rmult_le_compat_l; [exact Hk|]. nra.
  - rewrite phase_entry_outside by lra. exists 0. split; [reflexivity|lra].
Qed.

End PipelinesMore.

Lemma concave_endface_warnings_witness :
  warnings (concave_endface (bench spot) 50e-6 2 1e-3) = [].
Proof.
  destruct (@concave_endface_warnings SampleArrays (bench spot) 50e-6 2 1e-3) as [H _].
  - simpl. lra.
  - apply H. lra.
Defined.

Lemma bench_mask_run :
  outcome (concave_phase_mask (bench spot) 1 1 1) =
  inr (map (map (phase_entry 1 1 1))
           (radial_grid (linspace (- 4 / 2) (4 / 2) 4) (linspace (- 4 / 2) (4 / 2) 4))).
Proof.
  rewrite (@concave_phase_mask_run SampleArrays) by lra. reflexivity.
Qed.

Lemma bench_mask_corner :
  entry_at (map (map (phase_entry 1 1 1))
                (radial_grid (linspace (- 4 / 2) (4 / 2) 4) (linspace (- 4 / 2) (4 / 2) 4)))
           0 0
  = Some (phase_entry 1 1 1 (sqrt ((- 4 / 2 + INR 0 * ((4 / 2 - - 4 / 2) / INR (4 - 1))) ^ 2 +
                                   (- 4 / 2 + INR 0 * ((4 / 2 - - 4 / 2) / INR (4 - 1))) ^ 2))).
Proof.
  rewrite (@phase_mask_entry SampleArrays (bench spot) 1 1 1 _ 0 0 bench_mask_run).
  cbn [physical_size grid_size bench].
  now rewrite linspace_lookup by lia.
Qed.

Lemma phase_mask_symmetric_witness :
  let mask := map (map (phase_entry 1 1 1))
                  (radial_grid (linspace (- 4 / 2) (4 / 2) 4) (linspace (- 4 / 2) (4 / 2) 4)) in
  entry_at mask 0 1 = entry_at mask 1 0 /\
  entry_at mask (4 - 1 - 0) 1 = entry_at mask 0 1.
Proof.
  intros mask.
  destruct (@phase_mask_symmetric SampleArrays (bench spot) 1 1 1 mask 0 1 bench_mask_run)
    as [Ht Hm].
  split; [exact Ht|]. apply Hm; simpl; lia.
Defined.

Lemma phase_mask_bounds_witness :
  exists phase,
    phase_entry 1 1 1 (sqrt ((- 4 / 2 + INR 0 * ((4 / 2 - - 4 / 2) / INR (4 - 1))) ^ 2 +
                             (- 4 / 2 + INR 0 * ((4 / 2 - - 4 / 2) / INR (4 - 1))) ^ 2))
    = Fin phase /\
    0 <= phase <= 1 * 1 ^ 2 / (2 * 1).
Proof.
  apply (@phase_mask_bounds SampleArrays (bench spot) 1 1 1 _ 0 0 _
           ltac:(lra) ltac:(lra) bench_mask_run bench_mask_corner).
Defined.

(** ** The sweep, the summary and the study *)

Section StudyMore.
Context {LP : LightPipes}.

(** The concave half of the loop: one width per radius, in order. *)
Lemma outcome_sweep_concave (self : SMF28Simulator) (radii : list R) (distance : R)
    (acc cs : list width) :
  outcome (sweep_concave self radii distance acc) = inr cs <->
  exists ws,
    Forall2 (fun r w => outcome (concave_width self r distance) = inr w) radii ws /\
    cs = acc ++ ws.
Proof.
  revert acc. induction radii as [|r rest IH]; intros acc; cbn [sweep_concave].
  - split.
    + intros [= <-]. exists []. split; [constructor|now rewrite app_nil_r].
    + intros (ws & Hws & ->). inversion Hws. now rewrite app_nil_r.
  - rewrite outcome_bind.
    destruct (outcome (concave_width self r distance)) as [e|wc] eqn:Hr.
    + split; [discriminate|]. intros (ws & Hws & _). inversion Hws; subst. congruence.
    + rewrite IH. split.
      * intros (ws & Hws & ->). exists (wc :: ws). split; [now constructor|].
        now rewrite <- app_assoc.
      * intros (ws & Hws & ->). inversion Hws as [|? w' ? ws' Hw Hrest]; subst.
        assert (w' = wc) as -> by congruence.
        exists ws'. split; [exact Hrest|]. now rewrite <- app_assoc.
Qed.

Lemma sweep_results_in_order_aux (self : SMF28Simulator) (radii : list R) (distance : R)
    (flats concaves : list width) :
  outcome (sweep self radii distance ([], [])) = inr (flats, concaves) ->
  length flats = length radii /\ length concaves = length radii.
Proof.
  rewrite outcome_sweep. destruct radii as [|r rest].
  - now intros [= <- <-].
  - destruct (outcome (flat_width self distance)) as [e|wf]; [discriminate|].
    destruct (outcome (sweep_concave self (r :: rest) distance ([], []).2)) as [e|cs] eqn:E;
      [discriminate|].
    intros [= <- <-]. cbn [fst app]. split; [simpl; now rewrite repeat_length|].
    apply outcome_sweep_concave in E as (ws & Hws & ->).
    symmetry. exact (Forall2_length _ _ _ Hws).
Qed.

(** X12.  When the sweep returns, both lists have one entry per radius,
    in sweep order: the i-th concave width is the measurement made at the
    i-th curvature radius. *)
Theorem sweep_results_in_order (self : SMF28Simulator) (radii : list R) (distance : R)
    (flats concaves : list width) :
  outcome (sweep self radii distance ([], [])) = inr (flats, concaves) ->
  length flats = length radii /\
  Forall2 (fun r w => outcome (concave_width self r distance) = inr w) radii concaves.
Proof.
  rewrite outcome_sweep. destruct radii as [|r rest].
  - intros [= <- <-]. split; [reflexivity|constructor].
  - destruct (outcome (flat_width self distance)) as [e|wf]; [discriminate|].
    destruct (outcome (sweep_concave self (r :: rest) distance ([], []).2)) as [e|cs] eqn:E;
      [discriminate|].
    intros [= <- <-]. cbn [fst app]. split; [simpl; now rewrite repeat_length|].
    apply outcome_sweep_concave in E as (ws & Hws & ->). exact Hws.
Qed.

Lemma Forall2_exists_r {A B} (P : A -> B -> Prop) (l : list A) :
  (forall a, a ∈ l -> exists b, P a b) -> exists bs, Forall2 P l bs.
Proof.
  induction l as [|a l IH]; intros H; [exists []; constructor|].
  destruct (H a) as [b Hb]; [left|].
  destruct IH as [bs Hbs]; [intros a' Ha'; apply H; now right|].
  exists (b :: bs). now constructor.
Qed.

Lemma Forall2_elem_of_l {A B} (P : A -> B -> Prop) (l : list A) (bs : list B) (a : A) :
  Forall2 P l bs -> a ∈ l -> exists b, P a b.
Proof.
  induction 1 as [|x y l bs Hxy _ IH]; intros Ha; [inversion Ha|].
  apply elem_of_cons in Ha as [->|Ha]; [now exists y|now apply IH].
Qed.

(** X13.  A non-empty sweep returns exactly when the flat measurement
    and the concave measurement at every radius of the list succeed: one
    failing radius makes the whole sweep raise, with no partial result. *)
Theorem sweep_all_or_nothing (self : SMF28Simulator) (radii : list R) (distance : R) :
  radii <> [] ->
  (exists result, outcome (sweep self radii distance ([], [])) = inr result) <->
  (exists wf, outcome (flat_width self distance) = inr wf) /\
  (forall r, r ∈ radii -> exists w, outcome (concave_width self r distance) = inr w).
Proof.
  intros Hne. rewrite outcome_sweep.
  destruct radii as [|r0 rest]; [congruence|]. cbn [fst snd]. split.
  - intros [result H].
    destruct (outcome (flat_width self distance)) as [e|wf]; [discriminate|].
    split; [now exists wf|].
    destruct (outcome (sweep_concave self (r0 :: rest) distance [])) as [e|cs] eqn:E;
      [discriminate|].
    apply outcome_sweep_concave in E as (ws & Hws & _).
    intros r Hr. exact (Forall2_elem_of_l _ _ _ _ Hws Hr).
  - intros [[wf ->] Hall].
    destruct (Forall2_exists_r _ _ Hall) as [ws Hws].
    assert (E : outcome (sweep_concave self (r0 :: rest) distance []) = inr ([] ++ ws)).
    { apply outcome_sweep_concave. now exists ws. }
    rewrite E. eexists. reflexivity.
Qed.

Lemma last_item_snoc (l : list width) (x : width) : last_item (l ++ [x]) = mret x.
Proof.
  unfold last_item. destruct l as [|y l]; [reflexivity|].
  cbn [app]. f_equal. f_equal. apply last_last.
Qed.

(** X14.  The summary raises IndexError when either list of widths is
    empty; otherwise it is the percentage computed from the last concave
    width and the last flat width, the earlier entries playing no part. *)
Theorem print_summary_last (flats concaves : list width) (f c : width) :
  (forall l : list width, print_summary [] l = py_raise IndexError) /\
  print_summary (flats ++ [f]) [] = py_raise IndexError /\
  print_summary (flats ++ [f]) (concaves ++ [c]) = divergence_increase c f.
Proof.
  split; [reflexivity|]. split.
  - unfold print_summary. rewrite last_item_snoc, py_bind_ret. reflexivity.
  - unfold print_summary. rewrite !last_item_snoc, !py_bind_ret. reflexivity.
Qed.

Lemma outcome_np_truediv (a b : npfloat) : outcome (np_truediv a b) = inr (np_div_value a b).
Proof. reflexivity. Qed.

(** X15.  The percentage raises in one case only: both widths are
    Python integers and the flat one is 0 — the ZeroDivisionError of two
    degenerate analyses.  With a numpy width on either side it never
    raises. *)
Theorem divergence_increase_raises (concave flat : width) (e : exn) :
  outcome (divergence_increase concave flat) = inl e <->
  e = ZeroDivisionError /\ exists a, concave = PyInt a /\ flat = PyInt 0.
Proof.
  unfold divergence_increase. rewrite outcome_bind.
  destruct concave as [a|x], flat as [b|y]; cbn [width_truediv].
  - destruct (Z.eqb_spec b 0) as [->|Hb]; cbn.
    + split; [intros [= <-]; split; [reflexivity|now exists a]|now intros [-> _]].
    + split; [discriminate|]. intros (_ & a' & _ & [= ->]). congruence.
  - rewrite outcome_np_truediv. split; [discriminate|]. now intros (_ & a' & _ & ?).
  - rewrite outcome_np_truediv. split; [discriminate|]. now intros (_ & a' & ? & _).
  - rewrite outcome_np_truediv. split; [discriminate|]. now intros (_ & a' & ? & _).
Qed.

Lemma divergence_increase_value (concave flat : width) (c f : R) :
  width_value concave = Some c -> width_value flat = Some f -> f <> 0 ->
  divergence_increase concave flat = mret (Fin ((c / f - 1) * 100)).
Proof.
  intros Hc Hf Hne. unfold divergence_increase.
  destruct concave as [a|[x| | |]], flat as [b|[y| | |]]; try discriminate;
    injection Hc as <-; injection Hf as <-; cbn [width_truediv].
  - destruct (Z.eqb_spec b 0) as [->|_]; [now contradiction Hne|].
    now rewrite py_bind_ret.
  - rewrite np_truediv_nonzero by exact Hne. now rewrite py_bind_ret.
  - rewrite np_truediv_nonzero by exact Hne. now rewrite py_bind_ret.
  - rewrite np_truediv_nonzero by exact Hne. now rewrite py_bind_ret.
Qed.

(** X16.  For a positive flat width the percentage is non-negative
    exactly when the concave beam is at least as wide as the flat one, is
    0 exactly when the two widths are equal, and is never below −100 for a
    non-negative concave width. *)
Theorem divergence_increase_sign (concave flat : width) (c f : R) :
  width_value concave = Some c -> width_value flat = Some f -> 0 < f ->
  exists p,
    divergence_increase concave flat = mret (Fin p) /\
    (0 <= p <-> f <= c) /\
    (p = 0 <-> c = f) /\
    (0 <= c -> -100 <= p).
Proof.
  intros Hc Hf Hpos.
  rewrite (divergence_increase_value concave flat c f Hc Hf) by lra.
  eexists. split; [reflexivity|].
  assert (Hq : c / f * f = c) by (field; lra).
  assert (Hinv : 0 < / f) by now apply Rinv_0_lt_compat.
  split; [|split].
  - split; intros H; nra.
  - split; intros H; [nra|]. subst c. replace (f / f) with 1 by (field; lra). lra.
  - intros Hc0. assert (0 <= c / f) by (apply Rdiv_nonneg; lra). lra.
Qed.

(** X17.  When the study returns, the sweep was not empty, the
    dictionary has exactly the keys curvature_radii, beam_widths_flat and
    beam_widths_concave, the radii are handed back unchanged, and the two
    lists are those of the sweep, one entry per radius. *)
Theorem study_result (self : SMF28Simulator) (radii : list R) (distance : R)
    (result : gmap string pyval) :
  outcome (study self radii distance) = inr result ->
  radii <> [] /\
  dom result = study_keys /\
  result !! "curvature_radii" = Some (VArr1 radii) /\
  exists flats concaves,
    outcome (sweep self radii distance ([], [])) = inr (flats, concaves) /\
    result !! "beam_widths_flat" = Some (VWidths flats) /\
    result !! "beam_widths_concave" = Some (VWidths concaves) /\
    length flats = length radii /\ length concaves = length radii.
Proof.
  unfold study. rewrite outcome_bind.
  destruct (outcome (sweep self radii distance ([], []))) as [e|[flats concaves]] eqn:Hsweep;
    [discriminate|].
  rewrite outcome_bind.
  destruct (outcome (comparison_figure self distance)) as [e|[]]; [discriminate|].
  rewrite outcome_bind.
  destruct (outcome (print_summary flats concaves)) as [e|p] eqn:Hsum; [discriminate|].
  intros [= <-].
  destruct (sweep_results_in_order_aux self radii distance flats concaves Hsweep)
    as [Hlf Hlc].
  split.
  - intros ->. destruct flats; [|discriminate]. discriminate.
  - split; [unfold study_keys; rewrite !dom_insert_L; set_solver|].
    split; [now rewrite lookup_insert_eq|].
    exists flats, concaves. split; [reflexivity|].
    split; [rewrite lookup_insert_ne by done; now rewrite lookup_insert_eq|].
    split; [rewrite !lookup_insert_ne by done; now rewrite lookup_insert_eq|].
    now split.
Qed.

End StudyMore.

(** *** The sweep on the 4 x 4 bench *)

Lemma bench_flat_width (distance : R) :
  outcome (flat_width (bench spot) distance) =
  inr (NpFloat64 (Fin (IZR (Z.of_nat 2 - Z.of_nat 1) * 4 / INR 4))).
Proof.
  unfold flat_width, flat_endface. rewrite py_bind_ret.
  change (Fresnel (create_fiber_mode (bench spot)) distance)
    with (spot : @Field SampleArrays).
  rewrite spot_run, py_bind_ret. unfold get_beam_width, metrics.
  rewrite lookup_insert_ne by done. now rewrite lookup_insert_eq.
Qed.

Lemma bench_concave_width (radius distance : R) :
  outcome (concave_width (bench spot) radius distance) =
  inr (NpFloat64 (Fin (IZR (Z.of_nat 2 - Z.of_nat 1) * 4 / INR 4))).
Proof.
  unfold concave_width. rewrite outcome_bind.
  rewrite (@outcome_concave_endface SampleArrays) by (simpl; lra).
  cbn [Fresnel CircAperture SubPhase SampleArrays create_fiber_mode GaussBeam lp bench].
  rewrite spot_run, py_bind_ret. unfold get_beam_width, metrics.
  rewrite lookup_insert_ne by done. now rewrite lookup_insert_eq.
Qed.

Lemma bench_sweep (radius distance : R) :
  outcome (sweep (bench spot) [radius] distance ([], [])) =
  inr ([NpFloat64 (Fin (IZR (Z.of_nat 2 - Z.of_nat 1) * 4 / INR 4))],
       [NpFloat64 (Fin (IZR (Z.of_nat 2 - Z.of_nat 1) * 4 / INR 4))]).
Proof.
  rewrite (@outcome_sweep SampleArrays), bench_flat_width.
  cbn [sweep_concave snd]. rewrite outcome_bind, bench_concave_width. reflexivity.
Qed.

Lemma bench_study (distance : R) :
  exists result, outcome (study (bench spot) [50e-6] distance) = inr result.
Proof.
  assert (Hprofile : forall w, get_x_profile (metrics (bench spot) (spot : @Field SampleArrays)
                                                [0; 1; 1; 0] 1 w) = mret [0; 1; 1; 0]).
  { intros w. unfold get_x_profile, metrics.
    rewrite !lookup_insert_ne by done. now rewrite lookup_insert_eq. }
  assert (Hget : forall w, get_beam_width (metrics (bench spot) (spot : @Field SampleArrays)
                                             [0; 1; 1; 0] 1 w) = mret w).
  { intros w. unfold get_beam_width, metrics.
    rewrite lookup_insert_ne by done. now rewrite lookup_insert_eq. }
  assert (Hconcave : outcome (concave_endface (bench spot) 50e-6 2.0 distance)
                     = inr (spot : @Field SampleArrays)).
  { rewrite (@outcome_concave_endface SampleArrays) by (simpl; lra). reflexivity. }
  assert (Hnorm : exists out, outcome (normalize_profile [0; 1; 1; 0]) = inr out).
  { unfold normalize_profile, np_max. rewrite py_bind_ret. eexists. reflexivity. }
  destruct Hnorm as [out Hnorm].
  assert (Hfig : outcome (comparison_figure (bench spot) distance) = inr tt).
  { unfold comparison_figure, flat_endface. rewrite py_bind_ret.
    change (Fresnel (create_fiber_mode (bench spot)) distance)
      with (spot : @Field SampleArrays).
    rewrite outcome_bind, Hconcave.
    rewrite spot_run, !py_bind_ret, !Hget, !py_bind_ret, !Hprofile, !py_bind_ret.
    rewrite outcome_bind, Hnorm, outcome_bind, Hnorm. reflexivity. }
  unfold study. rewrite outcome_bind, bench_sweep, outcome_bind, Hfig, outcome_bind.
  unfold print_summary, last_item. rewrite !py_bind_ret. cbn [List.last].
  unfold divergence_increase. rewrite outcome_bind. cbn [width_truediv].
  rewrite outcome_np_truediv. eexists. reflexivity.
Qed.

Lemma sweep_results_in_order_witness :
  length [NpFloat64 (Fin (IZR (Z.of_nat 2 - Z.of_nat 1) * 4 / INR 4))] = length [50e-6] /\
  Forall2 (fun r w => outcome (concave_width (bench spot) r 1e-3) = inr w)
          [50e-6] [NpFloat64 (Fin (IZR (Z.of_nat 2 - Z.of_nat 1) * 4 / INR 4))].
Proof.
  apply (@sweep_results_in_order SampleArrays (bench spot) [50e-6] 1e-3
           [NpFloat64 (Fin (IZR (Z.of_nat 2 - Z.of_nat 1) * 4 / INR 4))]).
  apply bench_sweep.
Defined.

Lemma sweep_all_or_nothing_witness :
  exists result, outcome (sweep (bench spot) [50e-6; 30e-6] 1e-3 ([], [])) = inr result.
Proof.
  apply (@sweep_all_or_nothing SampleArrays (bench spot) [50e-6; 30e-6] 1e-3).
  - discriminate.
  - split.
    + eexists. apply bench_flat_width.
    + intros r _. eexists. apply bench_concave_width.
Defined.

Lemma divergence_increase_raises_witness :
  outcome (divergence_increase (PyInt 0) (PyInt 0)) = inl ZeroDivisionError.
Proof.
  apply (divergence_increase_raises (PyInt 0) (PyInt 0) ZeroDivisionError).
  split; [reflexivity|]. now exists 0%Z.
Defined.

Lemma divergence_increase_sign_witness :
  exists p,
    divergence_increase (NpFloat64 (Fin 3)) (NpFloat64 (Fin 2)) = mret (Fin p) /\
    (0 <= p <-> 2 <= 3).
Proof.
  destruct (divergence_increase_sign (NpFloat64 (Fin 3)) (NpFloat64 (Fin 2)) 3 2)
    as (p & Hp & Hsign & _).
  - reflexivity.
  - reflexivity.
  - lra.
  - exists p. now split.
Defined.

Lemma study_result_witness :
  exists result,
    outcome (study (bench spot) [50e-6] 1e-3) = inr result /\
    dom result = study_keys /\
    result !! "curvature_radii" = Some (VArr1 [50e-6]).
Proof.
  destruct (bench_study 1e-3) as [result Hres]. exists result.
  destruct (@study_result SampleArrays (bench spot) [50e-6] 1e-3 result Hres)
    as (_ & Hdom & Hradii & _).
  now repeat split.
Defined.

(** ** The fibre mode model and construction, further *)

Section FiberModeMore.
Context {LP : LightPipes}.

Lemma Rpower_15_sq (v : R) : 0 < v -> Rpower v 1.5 * Rpower v 1.5 = v ^ 3.
Proof.
  intros Hv. rewrite <- Rpower_plus.
  replace (1.5 + 1.5) with (INR 3) by (simpl; lra).
  now apply Rpower_pow.
Qed.

(** X18.  For a positive V number and a positive core radius the mode
    field diameter is a real number, and it is never smaller than the core
    diameter 2·core_radius. *)
Theorem mfd_at_least_core_diameter (self : SMF28Simulator) :
  0 < v_number self -> 0 < core_radius self ->
  exists m, calculate_mfd self = mret (PyFloat m) /\ 2 * core_radius self <= m.
Proof.
  intros Hv Ha. rewrite calculate_mfd_pos by exact Hv.
  eexists. split; [reflexivity|].
  destruct (Rlt_dec (v_number self) 2.405) as [Hlt|_]; [|lra].
  set (v := v_number self) in *. set (P := Rpower v 1.5).
  assert (HP : 0 < P) by apply Rpower_pos.
  assert (HPP : P * P = v ^ 3) by now apply Rpower_15_sq.
  assert (Hv2 : v * v < 2.405 * 2.405) by nra.
  assert (Hv3 : v ^ 3 < 14) by (simpl; nra).
  assert (HP46 : P < 4.6) by nra.
  assert (Hq1 : 0.35 <= 1.619 / P).
  { apply (Rmult_le_reg_r P); [exact HP|].
    unfold Rdiv. rewrite Rmult_assoc, Rinv_l by lra. lra. }
  assert (Hq2 : 0 <= 2.879 / v ^ 6).
  { apply Rdiv_nonneg; [lra|]. apply pow_lt. exact Hv. }
  nra.
Qed.

End FiberModeMore.

Lemma mfd_at_least_core_diameter_witness :
  exists m,
    calculate_mfd (bench spot) = mret (PyFloat m) /\ 2 * 4.5e-6 <= m.
Proof.
  apply (@mfd_at_least_core_diameter SampleArrays (bench spot)); simpl; lra.
Defined.

(** ** Normalising a profile for display *)

Lemma np_array_truediv_length (a : list R) (c : R) (out : list npfloat) :
  outcome (np_array_truediv a c) = inr out -> length out = length a.
Proof. cbn. intros [= <-]. apply length_map. Qed.

Lemma existsb_repeat_zero (f : R -> bool) (n : nat) :
  existsb f (repeat 0 (S n)) = f 0.
Proof.
  induction n as [|n IH]; [cbn; apply orb_false_r|].
  change (repeat 0 (S (S n))) with (0 :: repeat 0 (S n)).
  cbn [existsb]. rewrite IH. apply orb_diag.
Qed.

Lemma is_maximum_repeat_zero (n : nat) : is_maximum 0 (repeat 0 (S n)).
Proof.
  split; [left|]. intros x Hx. apply list_elem_of_In, repeat_spec in Hx. lra.
Qed.

(** X20.  Dividing a profile by its maximum raises ValueError on an
    empty profile; with a positive maximum it is silent, keeps the length,
    sends every sample x to x/max ≤ 1 and the peak to exactly 1; on an
    all-zero profile it does not raise but yields nan everywhere with a
    RuntimeWarning. *)
Theorem normalize_profile_peak (profile : list R) (m : R) (n : nat) :
  normalize_profile [] = py_raise ValueError /\
  (is_maximum m profile -> 0 < m ->
   exists out,
     normalize_profile profile = mret out /\
     length out = length profile /\
     Fin 1 ∈ out /\
     forall i x, profile !! i = Some x -> out !! i = Some (Fin (x / m)) /\ x / m <= 1) /\
  normalize_profile (repeat 0 (S n)) = MkPy [RuntimeWarning] (inr (repeat NaN (S n))).
Proof.
  split; [reflexivity|]. split.
  - intros Hmax Hm. unfold normalize_profile.
    rewrite (np_max_maximum m) by exact Hmax. rewrite py_bind_ret.
    rewrite np_array_truediv_nonzero by lra.
    eexists. split; [reflexivity|]. split; [apply length_map|]. split.
    + destruct Hmax as [Hin _]. apply list_elem_of_In, in_map_iff.
      exists m. split; [|now apply list_elem_of_In].
      unfold np_div_value. destruct (Req_dec_T m 0) as [|_]; [lra|].
      f_equal. field. lra.
    + intros i x Hx. split.
      * rewrite list_lookup_fmap, Hx. cbn. unfold np_div_value.
        now destruct (Req_dec_T m 0) as [|_]; [lra|].
      * assert (Hle : x <= m) by (apply Hmax; eapply list_elem_of_lookup_2, Hx).
        apply (Rmult_le_reg_r m); [exact Hm|].
        unfold Rdiv. rewrite Rmult_assoc, Rinv_l by lra. lra.
  - unfold normalize_profile.
    rewrite (np_max_maximum 0) by apply is_maximum_repeat_zero.
    rewrite py_bind_ret. unfold np_array_truediv.
    destruct (Req_dec_T 0 0) as [_|H]; [|now contradiction H].
    rewrite !existsb_repeat_zero.
    destruct (Req_dec_T 0 0) as [_|H]; [|now contradiction H].
    cbn [app]. f_equal. f_equal.
    induction (S n) as [|k IH]; [reflexivity|].
    cbn [repeat map]. rewrite IH. f_equal.
    unfold np_div_value. destruct (Req_dec_T 0 0) as [_|H]; [reflexivity|now contradiction H].
Qed.

Lemma normalize_profile_peak_witness :
  exists out,
    normalize_profile [0; 1; 1; 0] = mret out /\
    length out = 4%nat /\
    Fin 1 ∈ out.
Proof.
  destruct (normalize_profile_peak [0; 1; 1; 0] 1 0) as (_ & H & _).
  destruct H as (out & Hrun & Hlen & Hpeak & _).
  - split; [right; left|]. intros x Hx. apply list_elem_of_In in Hx. simpl in Hx.
    repeat (destruct Hx as [<-|Hx]; [lra|]). contradiction.
  - lra.
  - exists out. now repeat split.
Defined.

(** ** The launcher, further *)

(** X21.  Whenever [main] returns, what it returns is True exactly
    when the simulation file exists and the command exited with status 0;
    the CalledProcessError of a non-zero exit status never escapes it. *)
Theorem launcher_main_result (env : Launcher.environment) :
  (forall b, outcome (Launcher.main env) = inr b ->
             (b = true <-> Launcher.simulation_succeeded env)) /\
  outcome (Launcher.main env) <> inl CalledProcessError.
Proof.
  unfold Launcher.simulation_succeeded, Launcher.main, Launcher.subprocess_run_check.
  destruct env as [[|] [rc|]]; cbn; [destruct (Z.eqb_spec rc 0) as [->|Hrc]; cbn| | |];
    (split; [intros b Hb; split; [intros ->|intros [H1 H2]]|]);
    try discriminate; try congruence; auto.
Qed.

(** X22.  The exit status of the launcher never reflects that of the
    simulation: whenever [main] returns, True or False, the status is 0,
    and with the same file presence any two exit statuses of the simulation
    give the launcher the same exit status. *)
Theorem launcher_exit_status (env : Launcher.environment) :
  (forall b, outcome (Launcher.main env) = inr b ->
             Launcher.script_exit_code env = 0%Z) /\
  (forall rc rc',
     Launcher.script_exit_code
       {| Launcher.simulation_file_exists := Launcher.simulation_file_exists env;
          Launcher.conda_run := Launcher.Exited rc |} =
     Launcher.script_exit_code
       {| Launcher.simulation_file_exists := Launcher.simulation_file_exists env;
          Launcher.conda_run := Launcher.Exited rc' |}).
Proof.
  split.
  - intros b Hb. unfold Launcher.script_exit_code. now rewrite Hb.
  - unfold Launcher.script_exit_code, Launcher.main, Launcher.subprocess_run_check.
    intros rc rc'. destruct env as [[|] r]; cbn; [|reflexivity].
    now destruct (Z.eqb rc 0), (Z.eqb rc' 0).
Qed.

Lemma launcher_main_result_witness :
  false = true <->
  Launcher.simulation_succeeded
    {| Launcher.simulation_file_exists := true; Launcher.conda_run := Launcher.Exited 1 |}.
Proof.
  destruct (launcher_main_result
              {| Launcher.simulation_file_exists := true;
                 Launcher.conda_run := Launcher.Exited 1 |}) as [H _].
  apply H. reflexivity.
Defined.

Lemma launcher_exit_status_witness :
  Launcher.script_exit_code {| Launcher.simulation_file_exists := true;
                               Launcher.conda_run := Launcher.Exited 1 |} = 0%Z.
Proof.
  destruct (launcher_exit_status
              {| Launcher.simulation_file_exists := true;
                 Launcher.conda_run := Launcher.Exited 1 |}) as [H _].
  apply (H false). reflexivity.
Defined.
